(** * FastLeadFilter: rule-based lead filtering

    A shallow embedding of [app/services/fast_lead_filter.py] and the
    properties of its scoring, threshold selection, ranking, lead
    construction and summary annotation.

    Conventions of the embedding.
    - A Python [str] is a [string] whose characters are the code points
      below 256; [str.lower], [str.split] and [repr] are given for that
      range as CPython computes them.
    - A value of type [Any] (a field of a post, an attribute of a lead) is
      a [pyval]: [None], an integer, a string or a list.  Operations applied
      to a value of the wrong type raise, as they do in Python.  Values of
      other Python types (such as [bytes], which is not a string and yet has
      [lower], [len] and slices) are not covered; a property that needs
      titles and contents to be strings says so in its statement.
    - A [dict] is a [gmap] over its keys.
    - A call that may raise returns a [result]; [try]/[except Exception]
      is a match on it. *)

From Stdlib Require Import QArith.
From stdpp Require Import gmap strings list fin_maps sorting pretty.

Local Open Scope string_scope.
Local Open Scope list_scope.
Local Open Scope Z_scope.

(** ** Exceptions *)

Inductive exn : Type :=
  | AttributeError
  | TypeError
  | CollaboratorError (msg : string).

Inductive result (A : Type) : Type :=
  | Ok (a : A)
  | Raise (e : exn).
Arguments Ok {A} a.
Arguments Raise {A} e.

Definition rbind {A B : Type} (r : result A) (k : A → result B) : result B :=
  match r with
  | Ok a => k a
  | Raise e => Raise e
  end.

Global Instance result_bind : MBind result := λ A B k r, rbind r k.
Global Instance result_ret : MRet result := λ A a, Ok a.

Definition raises {A : Type} (r : result A) : Prop := ∃ e, r = Raise e.

(** [for x in l: body], where the body may raise: the first failure ends
    the loop. *)
Fixpoint for_each {A B : Type} (body : A → result B) (l : list A)
  : result (list B) :=
  match l with
  | [] => Ok []
  | x :: l' =>
      y ← body x;
      ys ← for_each body l';
      Ok (y :: ys)
  end.

(** ** Python strings *)

Module Str.

Abbreviation ascii := Ascii.ascii.

Definition code (c : ascii) : N := Ascii.N_of_ascii c.

(** [str.isspace] on one character. *)
Definition is_space (c : ascii) : bool :=
  let n := code c in
  ((9 <=? n) && (n <=? 13) || (28 <=? n) && (n <=? 32)
   || (n =? 133) || (n =? 160))%N.

(** [str.lower] on one character. *)
Definition lower_char (c : ascii) : ascii :=
  let n := code c in
  if ((65 <=? n) && (n <=? 90)
      || (192 <=? n) && (n <=? 222) && negb (n =? 215))%N
  then Ascii.ascii_of_N (n + 32)
  else c.

Fixpoint lower (s : string) : string :=
  match s with
  | EmptyString => EmptyString
  | String c s' => String (lower_char c) (lower s')
  end.

(** [s[:n]] *)
Fixpoint take (n : nat) (s : string) : string :=
  match n, s with
  | S n', String c s' => String c (take n' s')
  | _, _ => EmptyString
  end.

Global Arguments take : simpl nomatch.

Fixpoint split_go (word : string) (s : string) : list string :=
  match s with
  | EmptyString =>
      match word with EmptyString => [] | _ => [word] end
  | String c s' =>
      if is_space c then
        match word with
        | EmptyString => split_go EmptyString s'
        | _ => word :: split_go EmptyString s'
        end
      else split_go (word +:+ String c EmptyString) s'
  end.

(** [s.split()] *)
Definition split (s : string) : list string := split_go EmptyString s.

(** [needle in hay] *)
Fixpoint contains (needle hay : string) : bool :=
  String.prefix needle hay
  || match hay with
     | EmptyString => false
     | String _ hay' => contains needle hay'
     end.

(** [sep.join(l)] *)
Definition join (sep : string) (l : list string) : string :=
  String.concat sep l.

Definition hex_digit (n : N) : ascii :=
  if (n <? 10)%N then Ascii.ascii_of_N (48 + n)
  else Ascii.ascii_of_N (87 + n).

Definition backslash : ascii := Ascii.ascii_of_N 92.
Definition squote : ascii := Ascii.ascii_of_N 39.
Definition dquote : ascii := Ascii.ascii_of_N 34.

Fixpoint mem_char (c : ascii) (s : string) : bool :=
  match s with
  | EmptyString => false
  | String d s' => (code c =? code d)%N || mem_char c s'
  end.

(** One character of [repr(s)], [q] being the quote in use. *)
Definition repr_char (q : ascii) (c : ascii) : string :=
  let n := code c in
  if ((n =? code q) || (n =? 92))%N then String backslash (String c EmptyString)
  else if (n =? 9)%N then String backslash "t"
  else if (n =? 10)%N then String backslash "n"
  else if (n =? 13)%N then String backslash "r"
  else if ((n <? 32) || (n =? 127) || (128 <=? n) && (n <=? 160)
           || (n =? 173))%N
  then String backslash
         (String (Ascii.ascii_of_N 120) (String (hex_digit (n / 16)) (String (hex_digit (n mod 16)) EmptyString)))
  else String c EmptyString.

Fixpoint repr_body (q : ascii) (s : string) : string :=
  match s with
  | EmptyString => EmptyString
  | String c s' => repr_char q c +:+ repr_body q s'
  end.

(** [repr(s)]: single quotes, unless [s] has a single quote and no
    double quote. *)
Definition repr (s : string) : string :=
  let q := if mem_char squote s && negb (mem_char dquote s)
           then dquote else squote in
  String q (repr_body q s +:+ String q EmptyString).

End Str.

(** ** Python values

    The values the embedding covers: [None], integers, strings, and lists
    of such values. *)

Unset Elimination Schemes.
Inductive pyval : Type :=
  | VNone
  | VInt (z : Z)
  | VStr (s : string)
  | VList (l : list pyval).
Set Elimination Schemes.

Fixpoint py_repr (v : pyval) : string :=
  match v with
  | VNone => "None"
  | VInt z => pretty z
  | VStr s => Str.repr s
  | VList l => "[" +:+ Str.join ", " (map py_repr l) +:+ "]"
  end.

(** [str(v)], which is what an f-string field [{v}] inserts. *)
Definition py_str (v : pyval) : string :=
  match v with
  | VStr s => s
  | _ => py_repr v
  end.

(** [v.lower()] *)
Definition py_lower (v : pyval) : result string :=
  match v with
  | VStr s => Ok (Str.lower s)
  | _ => Raise AttributeError
  end.

(** [len(v)] *)
Definition py_len (v : pyval) : result nat :=
  match v with
  | VStr s => Ok (String.length s)
  | VList l => Ok (length l)
  | _ => Raise TypeError
  end.

(** [v[:n]] *)
Definition py_slice_to (n : nat) (v : pyval) : result pyval :=
  match v with
  | VStr s => Ok (VStr (Str.take n s))
  | VList l => Ok (VList (take n l))
  | _ => Raise TypeError
  end.

(** [v + s] for a string literal [s] *)
Definition py_add_str (v : pyval) (s : string) : result pyval :=
  match v with
  | VStr a => Ok (VStr (a +:+ s))
  | _ => Raise TypeError
  end.

Definition is_str (v : pyval) : Prop := ∃ s, v = VStr s.


(** ** Data model *)

(** A post is a [Dict[str, Any]]. *)
Abbreviation Post := (gmap string pyval).

(** [post.get(key, default)] *)
Definition post_get (post : Post) (key : string) (default_value : pyval) : pyval :=
  default default_value (post !! key).

(** [x.get("relevance_score", 0)], the sort key.  The scoring loop only ever
    stores an [int] under that key. *)
Definition relevance_score (x : Post) : Z :=
  match x !! "relevance_score" with
  | Some (VInt z) => z
  | _ => 0
  end.

(** Modelled from the spec: the [Lead] class of [app/models/lead.py], which
    is not part of the sources.  It is a plain record of the thirteen
    fields that [_create_leads_from_posts] passes to its constructor; the
    fields read from the post keep the dynamic type of what was read. *)
Record Lead : Type := mkLead {
  title : pyval;
  subreddit : pyval;
  snippet : pyval;
  permalink : pyval;
  author : pyval;
  created_utc : pyval;
  score : pyval;
  matched_keywords : list string;
  ai_relevance_score : pyval;
  urgency_level : string;
  business_context : string;
  problem_category : string;
  ai_summary : string
}.

(** [lead.ai_summary = summary] *)
Definition set_ai_summary (lead : Lead) (summary : string) : Lead :=
  mkLead (title lead) (subreddit lead) (snippet lead) (permalink lead)
         (author lead) (created_utc lead) (score lead)
         (matched_keywords lead) (ai_relevance_score lead)
         (urgency_level lead) (business_context lead)
         (problem_category lead) summary.

(** Values stored in the metrics dictionary. *)
Inductive mval : Type :=
  | MInt (z : Z)
  | MFloat (q : Q)
  | MStr (s : string).

Abbreviation Metrics := (gmap string mval).

(** The tables [BUSINESS_MAPPINGS] and [INDUSTRY_MAPPINGS] of
    [app/services/business_mapping.py]: category name to an entry
    dictionary, of which the code reads the key ["keywords"]. *)
Abbreviation Mappings := (gmap string (gmap string (list string))).

(** The mutable state the filter can reach: the two module-level tables
    and the instance's metrics slot. *)
Record Store : Type := mkStore {
  BUSINESS_MAPPINGS : Mappings;
  INDUSTRY_MAPPINGS : Mappings;
  _last_metrics : option Metrics
}.

(** [MAPPINGS.get(category, {}).get("keywords", [])] *)
Definition mapping_keywords (m : Mappings) (category : string) : list string :=
  default [] (default ∅ (m !! category) !! "keywords").

(** [business_keywords.extend(industry_keywords)], seen from the table:
    when [business_keywords] is the list stored in the table (the category
    is present and has the key ["keywords"]), [extend] grows that stored
    list in place; otherwise it grows the fresh default [[]] and the table
    is untouched.  The tables are taken as values: a list object stored
    under several entries at once, which [extend] would grow under all of
    them, is not represented. *)
Definition extend_in_place (m : Mappings) (category : string)
    (more : list string) : Mappings :=
  match m !! category with
  | Some entry =>
      match entry !! "keywords" with
      | Some stored => <[category := <["keywords" := stored ++ more]> entry]> m
      | None => m
      end
  | None => m
  end.

(** Truth value of an [Optional[str]]. *)
Definition truthy (s : option string) : bool :=
  match s with
  | Some (String _ _) => true
  | _ => false
  end.

(** ** Ranking: [list.sort(key=..., reverse=True)]

    Python's sort is stable, also with [reverse=True]: the result is in
    descending key order and elements with equal keys keep their order. *)

Section Sort.
Context {A : Type} (key : A → Z).

Fixpoint insert_desc (x : A) (l : list A) : list A :=
  match l with
  | [] => [x]
  | y :: l' => if key x <? key y then y :: insert_desc x l' else x :: l
  end.

Definition sort_desc (l : list A) : list A := foldr insert_desc [] l.

(** Descending key order. *)
Definition desc (a b : A) : Prop := key b ≤ key a.

End Sort.

(** ** The filter *)

Definition struggle_indicators : list string :=
  [ "struggling"; "help"; "can't"; "cannot"; "can not"; "trouble"; "problem";
    "issue"; "stuck"; "frustrated"; "overwhelmed"; "desperate"; "urgent";
    "failing"; "lost"; "losing"; "declining"; "first client";
    "first customer"; "no customers"; "no clients"; "getting clients";
    "customer acquisition"; "lead generation"; "need help"; "looking for";
    "how to"; "what should"; "any advice" ].

(** The four scoring loops over the search text of one post. *)
Definition text_score (all_keywords enhanced_keywords : list string)
    (problem_description : string) (text : string) : Z :=
  let score := 0 in
  let score :=
    fold_left (λ score keyword,
      if Str.contains (Str.lower keyword) text then score + 3 else score)
      all_keywords score in
  let score :=
    fold_left (λ score indicator,
      if Str.contains indicator text then score + 2 else score)
      struggle_indicators score in
  let score :=
    fold_left (λ score keyword,
      if Str.contains (Str.lower keyword) text then score + 4 else score)
      enhanced_keywords score in
  let problem_words := Str.split (Str.lower problem_description) in
  let score :=
    fold_left (λ score word,
      if (3 <? String.length word)%nat && Str.contains word text
      then score + 1 else score)
      problem_words score in
  score.

(** The search text of one post: [f"{title} {content}"], both lowercased. *)
Definition search_text (post : Post) : result string :=
  title ← py_lower (post_get post "title" (VStr ""));
  content ← py_lower (post_get post "content" (VStr ""));
  Ok (title +:+ " " +:+ content).

(** The score of one post. *)
Definition post_score (all_keywords enhanced_keywords : list string)
    (problem_description : string) (post : Post) : result Z :=
  text ← search_text post;
  Ok (text_score all_keywords enhanced_keywords problem_description text).

(** Number of entries of [l] that satisfy [p], repetitions counted. *)
Definition hits (p : string → bool) (l : list string) : Z :=
  Z.of_nat (length (List.filter p l)).

(** The tests of the four scoring loops. *)
Definition keyword_hit (text keyword : string) : bool :=
  Str.contains (Str.lower keyword) text.
Definition indicator_hit (text indicator : string) : bool :=
  Str.contains indicator text.
Definition word_hit (text word : string) : bool :=
  (3 <? String.length word)%nat && Str.contains word text.

(** What the scoring loop turns [post] into: the same dictionary with its
    score stored under ["relevance_score"]. *)
Definition scored_as (all_keywords enhanced_keywords : list string)
    (problem_description : string) (post scored : Post) : Prop :=
  ∃ score,
    post_score all_keywords enhanced_keywords problem_description post = Ok score
    ∧ scored = <["relevance_score" := VInt score]> post.

(** [out] holds exactly the posts of [D] that reach the threshold. *)
Definition selects_exactly (threshold : Z) (D out : list Post) : Prop :=
  (∀ d, d ∈ out → threshold ≤ relevance_score d)
  ∧ (∀ d, d ∈ D → threshold ≤ relevance_score d → d ∈ out)
  ∧ (∀ d, d ∈ out → d ∈ D)
  ∧ out ≡ₚ filter (λ d, threshold ≤ relevance_score d) D.

(** A post as the data model has it: title and content are strings (or
    absent). *)
Definition well_formed (post : Post) : Prop :=
  is_str (post_get post "title" (VStr ""))
  ∧ is_str (post_get post "content" (VStr "")).

Section FastLeadFilter.

(** [self.ai_config["threshold"]] *)
Variable threshold : Z.

(** [self.ai_enhancer.enhance_query(problem_description, business_type)
    .keywords]: the external enhancer, which may raise. *)
Variable enhance_query : string → string → result (list string).

(** The loop [for post in posts] of [_rule_based_filter].  The first
    component of the result is the input sequence as the loop leaves it
    (every post carrying its score), the second is [filtered_posts]. *)
Fixpoint scoring_loop (all_keywords enhanced_keywords : list string)
    (problem_description : string) (posts : list Post)
    (filtered_posts : list Post) : result (list Post * list Post) :=
  match posts with
  | [] => Ok ([], filtered_posts)
  | post :: rest =>
      score ← post_score all_keywords enhanced_keywords problem_description post;
      let post := <["relevance_score" := VInt score]> post in
      let filtered_posts :=
        if threshold <=? score then filtered_posts ++ [post]
        else filtered_posts in
      '(scored, filtered_posts) ←
        scoring_loop all_keywords enhanced_keywords problem_description
                     rest filtered_posts;
      Ok (post :: scored, filtered_posts)
  end.

(** Lines 112 and 113: the log line of the first five posts slices each
    title, which raises on a title that cannot be sliced. *)
Definition debug_titles (posts : list Post) : result (list pyval) :=
  for_each (λ post, py_slice_to 50 (post_get post "title" (VStr "")))
           (take 5 posts).

(** Lines 85 to 88: the keyword lookup, with its effect on the table. *)
Definition lookup_keywords (st : Store) (business_type : string)
    (industry_type : option string) : list string * Store :=
  let business_keywords := mapping_keywords (BUSINESS_MAPPINGS st) business_type in
  if truthy industry_type then
    let industry_keywords :=
      mapping_keywords (INDUSTRY_MAPPINGS st) (default "" industry_type) in
    (business_keywords ++ industry_keywords,
     mkStore (extend_in_place (BUSINESS_MAPPINGS st) business_type industry_keywords)
             (INDUSTRY_MAPPINGS st) (_last_metrics st))
  else (business_keywords, st).

(** [_rule_based_filter], returning also the scored input sequence. *)
Definition rule_based_scored (st : Store) (posts : list Post)
    (problem_description business_type : string)
    (industry_type : option string)
  : result (list Post * list Post) * Store :=
  let '(business_keywords, st) := lookup_keywords st business_type industry_type in
  (enhanced_keywords ← enhance_query problem_description business_type;
   let all_keywords := business_keywords ++ enhanced_keywords in
   _ ← debug_titles posts;
   '(scored, filtered_posts) ←
     scoring_loop all_keywords enhanced_keywords problem_description posts [];
   Ok (scored, sort_desc relevance_score filtered_posts),
   st).

Definition _rule_based_filter (st : Store) (posts : list Post)
    (problem_description business_type : string)
    (industry_type : option string) : result (list Post) * Store :=
  let '(r, st) :=
    rule_based_scored st posts problem_description business_type industry_type in
  ('(_, filtered_posts) ← r; Ok filtered_posts, st).

(** The [snippet] argument of the [Lead] constructor. *)
Definition make_snippet (post : Post) : result pyval :=
  n ← py_len (post_get post "content" (VStr ""));
  if (200 <? n)%nat then
    head200 ← py_slice_to 200 (post_get post "content" (VStr ""));
    py_add_str head200 "..."
  else Ok (post_get post "content" (VStr "")).

(** The body of the [try] in [_create_leads_from_posts]. *)
Definition make_lead (post : Post) (business_type : string) : result Lead :=
  snippet ← make_snippet post;
  Ok (mkLead (post_get post "title" (VStr ""))
             (post_get post "subreddit" (VStr ""))
             snippet
             (post_get post "permalink" (VStr ""))
             (post_get post "author" (VStr ""))
             (post_get post "created_utc" (VInt 0))
             (post_get post "score" (VInt 0))
             []
             (post_get post "relevance_score" (VInt 0))
             "Medium"
             business_type
             "General"
             "").

Fixpoint _create_leads_from_posts (posts : list Post)
    (problem_description business_type : string) : list Lead :=
  match posts with
  | [] => []
  | post :: rest =>
      match make_lead post business_type with
      | Ok lead =>
          lead :: _create_leads_from_posts rest problem_description business_type
      | Raise _ =>
          _create_leads_from_posts rest problem_description business_type
      end
  end.

(** The words of the problem description found among the title words. *)
Definition matching_words (title_words problem_words : list string)
  : list string :=
  filter (λ word, word ∈ title_words) problem_words.

(** The body of the loop in the [try] of [_add_simple_summaries]. *)
Definition simple_summary (problem_description : string) (lead : Lead)
  : result Lead :=
  lowered ← py_lower (title lead);
  let title_words := Str.split lowered in
  let problem_words := Str.split (Str.lower problem_description) in
  let matching_words := matching_words title_words problem_words in
  head80 ← py_slice_to 80 (title lead);
  let summary :=
    match matching_words with
    | _ :: _ =>
        "Post about " +:+ Str.join ", " matching_words +:+ " - "
          +:+ py_str head80 +:+ "..."
    | [] =>
        "Post about " +:+ Str.lower problem_description +:+ " - "
          +:+ py_str head80 +:+ "..."
    end in
  Ok (set_ai_summary lead summary).

(** The body of the loop in the [except] of [_add_simple_summaries]. *)
Definition fallback_summary (problem_description : string) (lead : Lead)
  : result Lead :=
  head100 ← py_slice_to 100 (title lead);
  Ok (set_ai_summary lead
        ("Post about " +:+ Str.lower problem_description +:+ " - "
           +:+ py_str head100 +:+ "...")).

(** A snippet within the bound: a string of at most 203 characters. *)
Definition bounded_snippet (lead : Lead) : Prop :=
  ∃ s, snippet lead = VStr s ∧ (String.length s ≤ 203)%nat.

(** Values that [v[:n]] accepts. *)
Definition sliceable (v : pyval) : Prop :=
  match v with
  | VStr _ | VList _ => True
  | _ => False
  end.

(** Number of times [w] occurs in [l]. *)
Definition occurrences (w : string) (l : list string) : nat :=
  length (filter (λ x, x = w) l).

(** The summary text of the [try] branch for a string title. *)
Definition summary_text (problem_description title : string) : string :=
  match matching_words (Str.split (Str.lower title))
                       (Str.split (Str.lower problem_description)) with
  | (_ :: _) as matches =>
      "Post about " +:+ Str.join ", " matches +:+ " - "
        +:+ Str.take 80 title +:+ "..."
  | [] =>
      "Post about " +:+ Str.lower problem_description +:+ " - "
        +:+ Str.take 80 title +:+ "..."
  end.

Definition _add_simple_summaries (leads : list Lead)
    (problem_description : string) : result (list Lead) :=
  match for_each (simple_summary problem_description) leads with
  | Ok leads' => Ok leads'
  | Raise _ => for_each (fallback_summary problem_description) leads
  end.

(** The dictionary written to [self._last_metrics] before the [try]. *)
Definition reset_metrics (posts : list Post) : Metrics :=
  {[ "posts_analyzed" := MInt (Z.of_nat (length posts));
     "posts_filtered" := MInt 0;
     "summaries_generated" := MInt 0;
     "tokens_used" := MInt 0;
     "cost" := MFloat 0;
     "filter_method" := MStr "rule_based";
     "summary_method" := MStr "openai" ]}.

(** [self._last_metrics.update({...})] *)
Definition update_metrics (m : Metrics) (filtered_posts : list Post)
    (leads : list Lead) : Metrics :=
  <["results_returned" := MInt (Z.of_nat (length leads))]>
    (<["posts_filtered" := MInt (Z.of_nat (length filtered_posts))]> m).

(** The body of the [try] in [filter_posts], up to the metrics update. *)
Definition pipeline (st : Store) (posts : list Post)
    (problem_description business_type : string)
    (industry_type : option string)
  : result (list Post * list Lead) * Store :=
  let '(r, st) :=
    _rule_based_filter st posts problem_description business_type industry_type in
  (filtered_posts ← r;
   let leads := _create_leads_from_posts filtered_posts problem_description business_type in
   leads ← match leads with
           | _ :: _ => _add_simple_summaries leads problem_description
           | [] => Ok leads
           end;
   Ok (filtered_posts, leads),
   st).

(** [self._last_metrics or {}] *)
Definition metrics_or_empty (m : option Metrics) : Metrics :=
  match m with
  | Some d => if decide (d = ∅) then ∅ else d
  | None => ∅
  end.

(** The store after the metrics reset that opens [filter_posts]. *)
Definition with_reset (st : Store) (posts : list Post) : Store :=
  mkStore (BUSINESS_MAPPINGS st) (INDUSTRY_MAPPINGS st)
          (Some (reset_metrics posts)).

Definition filter_posts (st : Store) (posts : list Post)
    (problem_description business_type : string)
    (industry_type : option string) : (list Lead * Metrics) * Store :=
  let st := with_reset st posts in
  match pipeline st posts problem_description business_type industry_type with
  | (Ok (filtered_posts, leads), st) =>
      let m := update_metrics (default ∅ (_last_metrics st)) filtered_posts leads in
      ((leads, m),
       mkStore (BUSINESS_MAPPINGS st) (INDUSTRY_MAPPINGS st) (Some m))
  | (Raise _, st) => (([], metrics_or_empty (_last_metrics st)), st)
  end.

Definition get_last_metrics (st : Store) : option Metrics := _last_metrics st.

End FastLeadFilter.


(** ** Summaries from the summary service *)

(** The text of the fallback summary; [title[:100]] is taken where the
    title can be sliced. *)
Definition fallback_text (problem_description : string) (lead : Lead) : string :=
  "Post about " +:+ Str.lower problem_description +:+ " - "
    +:+ py_str (match py_slice_to 100 (title lead) with
                | Ok head => head
                | Raise _ => title lead
                end) +:+ "...".

Section OpenAISummaries.

(** [self.summary_service.batch_generate_summaries(posts, problem_description)]:
    the external summary service, which may raise. *)
Variable batch_generate_summaries : list Post → string → result (list string).

(** The dictionary sent to the service for one lead. *)
Definition post_for_summary (lead : Lead) : Post :=
  {[ "title" := title lead; "content" := snippet lead ]}.

(** The body of the loop over [enumerate(leads[:10])]: [summaries !! i] is
    [summaries[i]] when [i < len(summaries)]. *)
Definition apply_summary (summaries : list string)
    (problem_description : string) (i : nat) (lead : Lead) : result Lead :=
  match summaries !! i with
  | Some summary => Ok (set_ai_summary lead summary)
  | None => fallback_summary problem_description lead
  end.

Fixpoint apply_summaries (summaries : list string)
    (problem_description : string) (i : nat) (leads : list Lead)
  : result (list Lead) :=
  match leads with
  | [] => Ok []
  | lead :: rest =>
      lead' ← apply_summary summaries problem_description i lead;
      rest' ← apply_summaries summaries problem_description (S i) rest;
      Ok (lead' :: rest')
  end.

(** The body of the [try] in [_add_openai_summaries]. *)
Definition openai_summaries_try (leads : list Lead)
    (problem_description : string) : result (list Lead) :=
  let posts_for_summary := post_for_summary <$> take 10 leads in
  summaries ← batch_generate_summaries posts_for_summary problem_description;
  top ← apply_summaries summaries problem_description 0 (take 10 leads);
  rest ← for_each (fallback_summary problem_description) (drop 10 leads);
  Ok (top ++ rest).

Definition _add_openai_summaries (leads : list Lead)
    (problem_description : string) : result (list Lead) :=
  match openai_summaries_try leads problem_description with
  | Ok leads' => Ok leads'
  | Raise _ => for_each (fallback_summary problem_description) leads
  end.

End OpenAISummaries.

(** ** Reading the result of a run *)

(** The lead that the pipeline builds from a scored post: the fields of the
    post, its score, and the summary of its title. *)
Definition lead_of (problem_description business_type : string)
    (post : Post) (lead : Lead) : Prop :=
  ∃ t s,
    post_get post "title" (VStr "") = VStr t
    ∧ lead = mkLead (VStr t)
                    (post_get post "subreddit" (VStr ""))
                    (VStr s)
                    (post_get post "permalink" (VStr ""))
                    (post_get post "author" (VStr ""))
                    (post_get post "created_utc" (VInt 0))
                    (post_get post "score" (VInt 0))
                    []
                    (VInt (relevance_score post))
                    "Medium" business_type "General"
                    (summary_text problem_description t).

(** A scored post: string title and content, and an integer score. *)
Definition scored_post (d : Post) : Prop :=
  well_formed d ∧ ∃ z, d !! "relevance_score" = Some (VInt z).

(** The score carried by a lead. *)
Definition lead_relevance (lead : Lead) : Z :=
  match ai_relevance_score lead with
  | VInt z => z
  | _ => 0
  end.

(** Contents from which no snippet can be built: [len] or the slice and
    concatenation raise. *)
Definition unusable_content (v : pyval) : Prop :=
  match v with
  | VNone | VInt _ => True
  | VList l => (200 < length l)%nat
  | VStr _ => False
  end.

(** Values without a [lower] method: [None], numbers and lists. *)
Definition lacks_lower (v : pyval) : Prop :=
  match v with
  | VNone | VInt _ | VList _ => True
  | VStr _ => False
  end.



(** Lookup of one key of one category in a table. *)
Definition table_get (m : Mappings) (category key : string)
  : option (list string) :=
  m !! category ≫= (.!! key).

(** Upper bound of a score: every keyword, indicator and word counted. *)
Definition score_bound (all_keywords enhanced_keywords : list string)
    (problem_description : string) : Z :=
  3 * Z.of_nat (length all_keywords)
  + 2 * Z.of_nat (length struggle_indicators)
  + 4 * Z.of_nat (length enhanced_keywords)
  + Z.of_nat (length (Str.split (Str.lower problem_description))).

(** * Sample data *)

Module Sample.

Definition post_of (title content : string) : Post :=
  {[ "title" := VStr title; "content" := VStr content ]}.

Definition lead_titled (title : pyval) : Lead :=
  mkLead title (VStr "") (VStr "") (VStr "") (VStr "") (VInt 0) (VInt 0) []
         (VInt 0) "Medium" "saas" "General" "".

(** An enhancer that finds nothing, one that returns fixed keywords and
    one that fails. *)
Definition no_keywords : string → string → result (list string) :=
  λ _ _, Ok [].
Definition fixed_keywords (l : list string)
  : string → string → result (list string) :=
  λ _ _, Ok l.
Definition failing_enhancer : string → string → result (list string) :=
  λ _ _, Raise (CollaboratorError "enhancer unavailable").

Definition empty_store : Store := mkStore ∅ ∅ None.

(** One business category and one industry category, one keyword each. *)
Definition small_store : Store :=
  mkStore {[ "saas" := {[ "keywords" := ["client"] ]} ]}
          {[ "tech" := {[ "keywords" := ["startup"] ]} ]}
          None.

(** Five posts that score 2, 8, 5, 5 and 1 for the problem description
    ["pricing"] when no keyword is configured. *)
Definition ranking_posts : list Post :=
  [ post_of "help" "";
    post_of "Help: stuck, lost" "urgent";
    post_of "Stuck on pricing" "please help";
    post_of "lost" "Urgent pricing question";
    post_of "pricing" "" ].

Definition with_score (z : Z) (post : Post) : Post :=
  <["relevance_score" := VInt z]> post.

Definition ranking_scored : list Post :=
  zip_with with_score [2; 8; 5; 5; 1] ranking_posts.

(** The score-8 post, then the two score-5 posts in their input order. *)
Definition ranking_output : list Post :=
  [ with_score 8 (post_of "Help: stuck, lost" "urgent");
    with_score 5 (post_of "Stuck on pricing" "please help");
    with_score 5 (post_of "lost" "Urgent pricing question") ].

(** One post that mentions the business and the industry keyword of
    [small_store]. *)
Definition startup_posts : list Post := [post_of "Startup client" "wanted"].

(** A summary service that answers with two fixed summaries, and one that
    fails. *)
Definition two_summaries : list Post → string → result (list string) :=
  λ _ _, Ok ["first summary"; "second summary"].
Definition failing_service : list Post → string → result (list string) :=
  λ _ _, Raise (CollaboratorError "summary service unavailable").

(** Twelve leads titled ["lead 0"] to ["lead 11"]. *)
Definition twelve_leads : list Lead :=
  (λ i : nat, lead_titled (VStr ("lead " +:+ pretty i))) <$> seq 0 12.

Definition long_content : string :=
  String.concat "" (replicate 21 "0123456789").

End Sample.
(** * Properties *)

(** ** Python strings *)

Example repr_samples :
  py_str (VList [VNone; VInt 1; VInt (-2); VStr "x"; VList []])
    = "[None, 1, -2, 'x', []]"
  ∧ Str.split "a  b c " = ["a"; "b"; "c"]
  ∧ Str.split " " = []
  ∧ Str.contains "" "" = true
  ∧ Str.lower "Ab Z" = "ab z".
Proof. repeat split; vm_compute; reflexivity. Qed.

Lemma for_each_Ok_map {A B : Type} (body : A → result B) (f : A → B) (l : list A) :
  Forall (λ x, body x = Ok (f x)) l → for_each body l = Ok (map f l).
Proof.
  induction 1 as [|x l Hx _ IH]; simpl; [reflexivity|].
  rewrite Hx; simpl. rewrite IH; reflexivity.
Qed.

Lemma for_each_raises_elem {A B : Type} (body : A → result B) (l : list A)
    (x : A) (e : exn) :
  x ∈ l → body x = Raise e → raises (for_each body l).
Proof.
  intros Hin Hx. induction l as [|y l IH]; [by apply elem_of_nil in Hin|].
  simpl. apply elem_of_cons in Hin as [<-|Hin].
  - rewrite Hx. by exists e.
  - destruct (body y); simpl; [|by eexists].
    destruct (IH Hin) as [e' ->]. by exists e'.
Qed.

(** ** Ranking *)

Section SortFacts.
Context {A : Type} (key : A → Z).

Lemma insert_desc_perm (x : A) (l : list A) : insert_desc key x l ≡ₚ x :: l.
Proof.
  induction l as [|y l IH]; simpl; [reflexivity|].
  destruct (key x <? key y); [|reflexivity].
  rewrite IH. apply Permutation_swap.
Qed.

Lemma sort_desc_perm (l : list A) : sort_desc key l ≡ₚ l.
Proof.
  induction l as [|x l IH]; simpl; [reflexivity|].
  rewrite insert_desc_perm. by f_equiv.
Qed.

Lemma insert_desc_sorted (x : A) (l : list A) :
  StronglySorted (desc key) l → StronglySorted (desc key) (insert_desc key x l).
Proof.
  induction 1 as [|y l Hl IH Hy]; simpl.
  - repeat constructor.
  - destruct (key x <? key y) eqn:E.
    + apply Z.ltb_lt in E. constructor; [exact IH|].
      rewrite insert_desc_perm. constructor; [unfold desc; lia | exact Hy].
    + apply Z.ltb_ge in E. constructor; [by constructor|].
      constructor; [exact E|].
      eapply Forall_impl; [exact Hy|]. unfold desc. intros; lia.
Qed.

Lemma sort_desc_sorted (l : list A) : StronglySorted (desc key) (sort_desc key l).
Proof.
  induction l as [|x l IH]; simpl; [constructor | by apply insert_desc_sorted].
Qed.

Lemma insert_desc_stable (s : Z) (x : A) (l : list A) :
  filter (λ a, key a = s) (insert_desc key x l)
  = filter (λ a, key a = s) (x :: l).
Proof.
  induction l as [|y l IH]; simpl; [reflexivity|].
  destruct (key x <? key y) eqn:E; [|reflexivity].
  apply Z.ltb_lt in E.
  rewrite (filter_cons _ y), IH, !filter_cons.
  repeat case_decide; try reflexivity; lia.
Qed.

Lemma sort_desc_stable (s : Z) (l : list A) :
  filter (λ a, key a = s) (sort_desc key l) = filter (λ a, key a = s) l.
Proof.
  induction l as [|x l IH]; simpl; [reflexivity|].
  rewrite insert_desc_stable, !filter_cons, IH. reflexivity.
Qed.

End SortFacts.

(** ** The scoring loop *)

Lemma relevance_score_insert (post : Post) (z : Z) :
  relevance_score (<["relevance_score" := VInt z]> post) = z.
Proof. unfold relevance_score. by rewrite lookup_insert_eq. Qed.

Lemma post_get_insert_ne (post : Post) (k k' : string) (v d : pyval) :
  k ≠ k' → post_get (<[k := v]> post) k' d = post_get post k' d.
Proof. intros. unfold post_get. by rewrite lookup_insert_ne. Qed.

Lemma post_score_well_formed ak ek pd (post : Post) :
  well_formed post → ∃ z, post_score ak ek pd post = Ok z.
Proof.
  intros [[t Ht] [c Hc]]. unfold post_score, search_text.
  rewrite Ht, Hc. simpl. eauto.
Qed.

Lemma scoring_loop_spec threshold ak ek pd (posts acc scored filtered : list Post) :
  scoring_loop threshold ak ek pd posts acc = Ok (scored, filtered) →
  Forall2 (scored_as ak ek pd) posts scored
  ∧ filtered = acc ++ filter (λ d, threshold ≤ relevance_score d) scored.
Proof.
  revert acc scored filtered.
  induction posts as [|post rest IH]; intros acc scored filtered; simpl.
  - intros [= <- <-]. split; [constructor | by rewrite app_nil_r].
  - destruct (post_score ak ek pd post) as [sc|e] eqn:Hsc; simpl; [|discriminate].
    destruct (scoring_loop _ _ _ _ rest _) as [[scored' filtered']|e] eqn:Hrec;
      simpl; [|discriminate].
    intros [= <- <-]. apply IH in Hrec as [Hall ->].
    split.
    + constructor; [by exists sc | exact Hall].
    + rewrite filter_cons, relevance_score_insert.
      destruct (Z.leb_spec threshold sc); case_decide; try lia;
        by rewrite <- ?app_assoc.
Qed.

Lemma scoring_loop_total threshold ak ek pd (posts acc : list Post) :
  Forall well_formed posts →
  ∃ scored filtered,
    scoring_loop threshold ak ek pd posts acc = Ok (scored, filtered).
Proof.
  intros Hwf. revert acc. induction Hwf as [|post rest Hp _ IH]; intros acc; simpl.
  - eauto.
  - destruct (post_score_well_formed ak ek pd post Hp) as [z ->]; simpl.
    edestruct IH as (scored & filtered & ->); simpl. eauto.
Qed.

Lemma debug_titles_total (posts : list Post) :
  Forall well_formed posts → ∃ l, debug_titles posts = Ok l.
Proof.
  intros Hwf. unfold debug_titles.
  assert (Forall well_formed (take 5 posts)) as H by by apply Forall_take.
  induction H as [|post rest [[t Ht] _] _ [l IH]]; simpl; [eauto|].
  rewrite Ht; simpl. rewrite IH; simpl. eauto.
Qed.

(** X25.  On posts whose title and content are strings the filter returns,
    as soon as the enhancer does. *)
Lemma rule_based_filter_total threshold enhance_query st posts pd bt it ek :
  enhance_query pd bt = Ok ek →
  Forall well_formed posts →
  ∃ out, fst (_rule_based_filter threshold enhance_query st posts pd bt it) = Ok out.
Proof.
  intros Hek Hwf. unfold _rule_based_filter, rule_based_scored.
  destruct (lookup_keywords st bt it) as [bk st1]. rewrite Hek; simpl.
  destruct (debug_titles_total posts Hwf) as [l ->]; simpl.
  destruct (scoring_loop_total threshold (bk ++ ek) ek pd posts [] Hwf)
    as (scored & filtered & ->); simpl. eauto.
Qed.

Lemma rule_based_filter_inv threshold enhance_query st posts pd bt it out st' :
  _rule_based_filter threshold enhance_query st posts pd bt it = (Ok out, st') →
  ∃ ek scored filtered,
    enhance_query pd bt = Ok ek
    ∧ st' = snd (lookup_keywords st bt it)
    ∧ scoring_loop threshold (fst (lookup_keywords st bt it) ++ ek) ek pd posts []
      = Ok (scored, filtered)
    ∧ out = sort_desc relevance_score filtered
    ∧ rule_based_scored threshold enhance_query st posts pd bt it
      = (Ok (scored, out), st').
Proof.
  unfold _rule_based_filter, rule_based_scored.
  destruct (lookup_keywords st bt it) as [bk st1]; simpl.
  destruct (enhance_query pd bt) as [ek|e]; simpl; [|discriminate].
  destruct (debug_titles posts) as [l|e]; simpl; [|discriminate].
  destruct (scoring_loop _ _ _ _ posts []) as [[scored filtered]|e] eqn:Hloop;
    simpl; [|discriminate].
  intros [= <- <-]. exists ek, scored, filtered. done.
Qed.

Lemma rule_based_scored_inv threshold enhance_query st posts pd bt it D out st' :
  rule_based_scored threshold enhance_query st posts pd bt it = (Ok (D, out), st') →
  ∃ ek filtered,
    enhance_query pd bt = Ok ek
    ∧ st' = snd (lookup_keywords st bt it)
    ∧ scoring_loop threshold (fst (lookup_keywords st bt it) ++ ek) ek pd posts []
      = Ok (D, filtered)
    ∧ out = sort_desc relevance_score filtered.
Proof.
  unfold rule_based_scored.
  destruct (lookup_keywords st bt it) as [bk st1]; simpl.
  destruct (enhance_query pd bt) as [ek|e]; simpl; [|discriminate].
  destruct (debug_titles posts) as [l|e]; simpl; [|discriminate].
  destruct (scoring_loop _ _ _ _ posts []) as [[scored filtered]|e] eqn:Hloop;
    simpl; [|discriminate].
  intros [= <- <- <-]. exists ek, filtered. done.
Qed.

(** The scored sequence is the input sequence, post by post, each with its
    score written under ["relevance_score"]. *)
Lemma rule_based_scored_posts threshold enhance_query st posts pd bt it D out st' :
  rule_based_scored threshold enhance_query st posts pd bt it = (Ok (D, out), st') →
  ∃ ek, enhance_query pd bt = Ok ek
        ∧ Forall2 (scored_as (fst (lookup_keywords st bt it) ++ ek) ek pd) posts D.
Proof.
  intros H. apply rule_based_scored_inv in H as (ek & filtered & Hek & _ & Hloop & _).
  apply scoring_loop_spec in Hloop as [Hall _]. eauto.
Qed.

(** C3.  The posts returned by [_rule_based_filter] are exactly the posts of
    the scored input sequence [D] whose [relevance_score] is at least the
    threshold: every returned post has a score at or above the threshold,
    no post of [D] at or above the threshold is missing, and each is
    returned as many times as it occurs in [D]. *)
Theorem threshold_filter_exact threshold enhance_query st posts pd bt it D out st' :
  rule_based_scored threshold enhance_query st posts pd bt it = (Ok (D, out), st') →
  fst (_rule_based_filter threshold enhance_query st posts pd bt it) = Ok out
  ∧ selects_exactly threshold D out.
Proof.
  intros H. split; [unfold _rule_based_filter; by rewrite H|].
  apply rule_based_scored_inv in H as (ek & filtered & _ & _ & Hloop & ->).
  apply scoring_loop_spec in Hloop as [_ ->]. simpl.
  unfold selects_exactly. repeat split.
  - intros d. rewrite sort_desc_perm, list_elem_of_filter. tauto.
  - intros d ? ?. rewrite sort_desc_perm, list_elem_of_filter. tauto.
  - intros d. rewrite sort_desc_perm, list_elem_of_filter. tauto.
  - apply sort_desc_perm.
Qed.

(** C4.  The returned sequence is in descending order of [relevance_score],
    and for every score the posts with that score come in the order they
    have in the input. *)
Theorem filtered_sorted_stable threshold enhance_query st posts pd bt it D out st' :
  rule_based_scored threshold enhance_query st posts pd bt it = (Ok (D, out), st') →
  StronglySorted (desc relevance_score) out
  ∧ ∀ s, filter (λ d, relevance_score d = s) out
         = filter (λ d, relevance_score d = s)
             (filter (λ d, threshold ≤ relevance_score d) D).
Proof.
  intros H. apply rule_based_scored_inv in H as (ek & filtered & _ & _ & Hloop & ->).
  apply scoring_loop_spec in Hloop as [_ ->]. simpl.
  split; [apply sort_desc_sorted | intros s; apply sort_desc_stable].
Qed.

(** The example of the ranking rule: threshold 5, scores 2, 8, 5, 5, 1. *)
Example ranking_example :
  rule_based_scored 5 Sample.no_keywords Sample.empty_store
    Sample.ranking_posts "pricing" "saas" None
  = (Ok (Sample.ranking_scored, Sample.ranking_output), Sample.empty_store).
Proof. vm_compute. reflexivity. Qed.

Lemma threshold_filter_exact_witness :
  fst (_rule_based_filter 5 Sample.no_keywords Sample.empty_store
         Sample.ranking_posts "pricing" "saas" None)
  = Ok Sample.ranking_output
  ∧ selects_exactly 5 Sample.ranking_scored Sample.ranking_output.
Proof.
  apply (threshold_filter_exact 5 Sample.no_keywords Sample.empty_store
           Sample.ranking_posts "pricing" "saas" None
           Sample.ranking_scored Sample.ranking_output Sample.empty_store).
  vm_compute. reflexivity.
Defined.

Lemma filtered_sorted_stable_witness :
  StronglySorted (desc relevance_score) Sample.ranking_output
  ∧ ∀ s, filter (λ d, relevance_score d = s) Sample.ranking_output
         = filter (λ d, relevance_score d = s)
             (filter (λ d, 5 ≤ relevance_score d) Sample.ranking_scored).
Proof.
  apply (filtered_sorted_stable 5 Sample.no_keywords Sample.empty_store
           Sample.ranking_posts "pricing" "saas" None
           Sample.ranking_scored Sample.ranking_output Sample.empty_store).
  vm_compute. reflexivity.
Defined.

(** ** Scoring *)

Lemma hits_nonneg (p : string → bool) (l : list string) : 0 ≤ hits p l.
Proof. unfold hits. lia. Qed.

Lemma hits_app (p : string → bool) (l1 l2 : list string) :
  hits p (l1 ++ l2) = hits p l1 + hits p l2.
Proof. unfold hits. rewrite List.filter_app, length_app. lia. Qed.

Lemma hits_cons (p : string → bool) (k : string) (l : list string) :
  hits p (k :: l) = (if p k then 1 else 0) + hits p l.
Proof. unfold hits. simpl. destruct (p k); simpl; lia. Qed.

Lemma hits_elem (p : string → bool) (k : string) (l : list string) :
  k ∈ l → p k = true → 1 ≤ hits p l.
Proof.
  intros Hin Hp. apply list_elem_of_split in Hin as (l1 & l2 & ->).
  rewrite hits_app, hits_cons, Hp.
  pose proof (hits_nonneg p l1). pose proof (hits_nonneg p l2). lia.
Qed.

Lemma fold_hits (w : Z) (p : string → bool) (l : list string) (s : Z) :
  fold_left (λ score k, if p k then score + w else score) l s
  = s + w * hits p l.
Proof.
  revert s. induction l as [|k l IH]; intros s; simpl.
  - unfold hits; simpl. lia.
  - rewrite IH, hits_cons. destruct (p k); lia.
Qed.

(** The score is a weighted count of hits: 3 for each entry of the combined
    keyword list, 2 for each struggle indicator, 4 for each entry of the
    enhanced list and 1 for each long word of the problem description. *)
Lemma text_score_closed_form ak ek pd text :
  text_score ak ek pd text
  = 3 * hits (keyword_hit text) ak
    + 2 * hits (indicator_hit text) struggle_indicators
    + 4 * hits (keyword_hit text) ek
    + hits (word_hit text) (Str.split (Str.lower pd)).
Proof.
  unfold text_score.
  rewrite (fold_hits 1 (word_hit text)), (fold_hits 4 (keyword_hit text)),
    (fold_hits 2 (indicator_hit text)), (fold_hits 3 (keyword_hit text)).
  lia.
Qed.

Lemma contains_empty (text : string) : Str.contains "" text = true.
Proof. destruct text; reflexivity. Qed.

Lemma keyword_hit_empty (text : string) : keyword_hit text "" = true.
Proof. apply contains_empty. Qed.

Lemma search_text_well_formed (post : Post) :
  well_formed post → ∃ text, search_text post = Ok text.
Proof.
  intros [[t Ht] [c Hc]]. unfold search_text. rewrite Ht, Hc. simpl. eauto.
Qed.

(** A keyword found in the text, added to the combined list alone, is worth
    3 points. *)
Lemma business_keyword_adds_three b1 b2 ek pd text k :
  keyword_hit text k = true →
  text_score (b1 ++ k :: b2) ek pd text = text_score (b1 ++ b2) ek pd text + 3.
Proof.
  intros Hk. rewrite !text_score_closed_form, !hits_app, hits_cons, Hk. lia.
Qed.

(** A keyword found in the text, added to the enhanced list, is counted by
    the combined pass and by the enhanced pass. *)
Lemma enhanced_keyword_adds_seven business e1 e2 pd text k :
  keyword_hit text k = true →
  text_score (business ++ e1 ++ k :: e2) (e1 ++ k :: e2) pd text
  = text_score (business ++ e1 ++ e2) (e1 ++ e2) pd text + 3 + 4.
Proof.
  intros Hk. rewrite !text_score_closed_form, !hits_app, hits_cons, Hk. lia.
Qed.

(** C1, as the code has it.  A keyword contributed by the enhancement step
    and found as a substring of the search text is counted twice: the
    3-point pass runs over the combined list, business and industry
    keywords followed by the enhanced keywords, and the 4-point pass runs
    over the enhanced keywords.  Each occurrence of the keyword in the
    enhanced list is therefore worth 3 + 4 = 7 points. *)
Theorem enhanced_keyword_scores_seven business e1 e2 pd post text k :
  search_text post = Ok text →
  Str.contains (Str.lower k) text = true →
  ∃ sc,
    post_score (business ++ e1 ++ e2) (e1 ++ e2) pd post = Ok sc
    ∧ post_score (business ++ e1 ++ k :: e2) (e1 ++ k :: e2) pd post
      = Ok (sc + 3 + 4).
Proof.
  intros Htext Hk. change (keyword_hit text k = true) in Hk.
  unfold post_score. rewrite Htext; simpl.
  eexists; split; [reflexivity|].
  f_equal. by apply enhanced_keyword_adds_seven.
Qed.

Lemma enhanced_keyword_scores_seven_witness :
  ∃ sc,
    post_score (["customer"] ++ [] ++ []) ([] ++ []) "first client"
      (Sample.post_of "My first Client" "") = Ok sc
    ∧ post_score (["customer"] ++ [] ++ ["client"]) ([] ++ ["client"])
        "first client" (Sample.post_of "My first Client" "")
      = Ok (sc + 3 + 4).
Proof.
  apply (enhanced_keyword_scores_seven ["customer"] [] [] "first client"
           (Sample.post_of "My first Client" "") "my first client " "client");
    vm_compute; reflexivity.
Defined.

(** C1, as claimed, fails.  With no business keyword and the single enhanced
    keyword ["client"], the post titled ["client"] scores 7; without the
    enhanced keyword it scores 0.  The keyword contributed 7 points, not 4. *)
Lemma enhanced_keyword_not_four :
  fst (rule_based_scored 0 (Sample.fixed_keywords ["client"]) Sample.empty_store
         [Sample.post_of "client" ""] "" "saas" None)
  = Ok ([Sample.with_score 7 (Sample.post_of "client" "")],
        [Sample.with_score 7 (Sample.post_of "client" "")])
  ∧ fst (rule_based_scored 0 Sample.no_keywords Sample.empty_store
           [Sample.post_of "client" ""] "" "saas" None)
    = Ok ([Sample.with_score 0 (Sample.post_of "client" "")],
          [Sample.with_score 0 (Sample.post_of "client" "")])
  ∧ 7 - 0 ≠ 4.
Proof. repeat split; [vm_compute; reflexivity..|lia]. Qed.

(** With an empty keyword configured and a threshold of at most 3, the
    filter keeps every post it scores. *)
Lemma empty_keyword_selects_all threshold ak ek pd (posts scored filtered : list Post) :
  "" ∈ ak → threshold ≤ 3 →
  scoring_loop threshold ak ek pd posts [] = Ok (scored, filtered) →
  filtered = scored.
Proof.
  intros Hin Hthr Hloop. apply scoring_loop_spec in Hloop as [Hall ->]. simpl.
  assert (Forall (λ d, threshold ≤ relevance_score d) scored) as Hge.
  { clear -Hall Hin Hthr.
    induction Hall as [|post d posts scored (sc & Hsc & ->) _ IH]; constructor; [|exact IH].
    rewrite relevance_score_insert. unfold post_score in Hsc.
    destruct (search_text post) as [text|e]; simpl in Hsc; [|discriminate].
    injection Hsc as <-. rewrite text_score_closed_form.
    pose proof (hits_elem (keyword_hit text) "" ak Hin (keyword_hit_empty text)).
    pose proof (hits_nonneg (indicator_hit text) struggle_indicators).
    pose proof (hits_nonneg (keyword_hit text) ek).
    pose proof (hits_nonneg (word_hit text) (Str.split (Str.lower pd))).
    lia. }
  clear Hall. induction Hge as [|d scored Hd _ IH]; [reflexivity|].
  rewrite filter_cons. case_decide; [by rewrite IH | lia].
Qed.

(** C10.  The empty keyword is found in every search text.  For every post
    with a string title and content, the empty title and content included,
    an empty keyword among the business keywords adds 3 to the score and an
    empty keyword among the enhanced keywords adds 3 + 4; with an empty
    keyword present the score is at least 3 (at least 7 when it is an
    enhanced keyword), so that a threshold of at most 3 lets the post
    through. *)
Theorem empty_keyword_scores_every_post threshold business enhanced pd (post : Post) :
  well_formed post →
  ∃ sc,
    post_score (business ++ enhanced) enhanced pd post = Ok sc
    ∧ (∀ b1 b2, business = b1 ++ b2 →
         post_score ((b1 ++ "" :: b2) ++ enhanced) enhanced pd post = Ok (sc + 3))
    ∧ (∀ e1 e2, enhanced = e1 ++ e2 →
         post_score (business ++ e1 ++ "" :: e2) (e1 ++ "" :: e2) pd post
         = Ok (sc + 3 + 4))
    ∧ ("" ∈ business ++ enhanced → 3 ≤ sc)
    ∧ ("" ∈ enhanced → 7 ≤ sc)
    ∧ ("" ∈ business ++ enhanced → threshold ≤ 3 →
         scoring_loop threshold (business ++ enhanced) enhanced pd [post] []
         = Ok ([<["relevance_score" := VInt sc]> post],
               [<["relevance_score" := VInt sc]> post])).
Proof.
  intros Hwf. destruct (search_text_well_formed post Hwf) as [text Htext].
  unfold post_score. rewrite Htext; simpl.
  pose proof (hits_nonneg (indicator_hit text) struggle_indicators) as Hi.
  pose proof (hits_nonneg (keyword_hit text) enhanced) as He.
  pose proof (hits_nonneg (keyword_hit text) (business ++ enhanced)) as Ha.
  pose proof (hits_nonneg (word_hit text) (Str.split (Str.lower pd))) as Hw.
  assert ("" ∈ business ++ enhanced → 3 ≤ text_score (business ++ enhanced) enhanced pd text) as H3.
  { intros Hin. rewrite text_score_closed_form.
    pose proof (hits_elem (keyword_hit text) "" _ Hin (keyword_hit_empty text)). lia. }
  eexists; split; [reflexivity|]. repeat split.
  - intros b1 b2 ->. f_equal. rewrite <- !app_assoc. simpl.
    apply business_keyword_adds_three, keyword_hit_empty.
  - intros e1 e2 ->. f_equal.
    apply enhanced_keyword_adds_seven, keyword_hit_empty.
  - exact H3.
  - intros Hin. rewrite text_score_closed_form.
    pose proof (hits_elem (keyword_hit text) "" enhanced Hin (keyword_hit_empty text)).
    assert ("" ∈ business ++ enhanced) as Hin' by (apply elem_of_app; by right).
    pose proof (hits_elem (keyword_hit text) "" _ Hin' (keyword_hit_empty text)).
    lia.
  - intros Hin Hthr. simpl. unfold post_score. rewrite Htext; simpl.
    apply H3 in Hin.
    destruct (Z.leb_spec threshold (text_score (business ++ enhanced) enhanced pd text));
      [reflexivity | lia].
Qed.

Lemma empty_keyword_scores_every_post_witness :
  ∃ sc,
    post_score ([""] ++ []) [] "" (Sample.post_of "" "") = Ok sc
    ∧ 3 ≤ sc
    ∧ scoring_loop 3 ([""] ++ []) [] "" [Sample.post_of "" ""] []
      = Ok ([<["relevance_score" := VInt sc]> (Sample.post_of "" "")],
            [<["relevance_score" := VInt sc]> (Sample.post_of "" "")]).
Proof.
  assert (well_formed (Sample.post_of "" "")) as Hwf
    by (split; exists ""; vm_compute; reflexivity).
  assert ("" ∈ [""] ++ @nil string) as Hin by (simpl; left).
  destruct (empty_keyword_scores_every_post 3 [""] [] "" (Sample.post_of "" "") Hwf)
    as (sc & Hsc & _ & _ & H3 & _ & Hloop).
  exists sc. split; [exact Hsc|]. split; [exact (H3 Hin)|].
  apply Hloop; [exact Hin | lia].
Defined.

(** A post with empty title and content scores 3 from one empty business
    keyword and 7 from one empty enhanced keyword. *)
Example empty_keyword_example :
  post_score ([""] ++ []) [] "" (Sample.post_of "" "") = Ok 3
  ∧ post_score ([] ++ [""]) [""] "" (Sample.post_of "" "") = Ok 7
  ∧ post_score ([] ++ []) [] "" (Sample.post_of "" "") = Ok 0.
Proof. repeat split; vm_compute; reflexivity. Qed.

(** ** Lead construction *)

Lemma length_take (n : nat) (s : string) :
  String.length (Str.take n s) = Nat.min n (String.length s).
Proof.
  revert s. induction n as [|n IH]; intros [|c s]; simpl; try reflexivity.
  by rewrite IH.
Qed.

Lemma length_app_string (a b : string) :
  String.length (a +:+ b) = (String.length a + String.length b)%nat.
Proof.
  induction a as [|c a IH]; [reflexivity|].
  change (String c a +:+ b) with (String c (a +:+ b)). simpl. by rewrite IH.
Qed.

(** C5.  For a post whose content is a string, the lead is built and its
    snippet is a string of at most 203 characters: the content itself when
    the content has at most 200 characters, and otherwise the first 200
    characters of the content followed by ["..."]. *)
Theorem snippet_bounded (post : Post) (pd business_type content : string) :
  post_get post "content" (VStr "") = VStr content →
  ∃ lead s,
    _create_leads_from_posts [post] pd business_type = [lead]
    ∧ snippet lead = VStr s
    ∧ (String.length s ≤ 203)%nat
    ∧ ((String.length content ≤ 200)%nat → s = content)
    ∧ ((200 < String.length content)%nat →
         s = Str.take 200 content +:+ "..."
         ∧ String.length (Str.take 200 content) = 200%nat).
Proof.
  intros Hc. simpl. unfold make_lead, make_snippet. rewrite Hc. simpl.
  destruct (Nat.ltb_spec 200 (String.length content)) as [Hlong|Hshort]; simpl.
  - eexists _, _. split; [reflexivity|]. split; [reflexivity|].
    rewrite length_app_string, !length_take.
    change (String.length "...") with 3%nat.
    split; [lia|]. split; [lia|]. intros _. split; [reflexivity | lia].
  - eexists _, _. split; [reflexivity|]. split; [reflexivity|].
    split; [lia|]. split; [reflexivity | lia].
Qed.

Lemma snippet_bounded_witness :
  ∃ lead s,
    _create_leads_from_posts [Sample.post_of "t" Sample.long_content] "p" "saas"
    = [lead]
    ∧ snippet lead = VStr s
    ∧ (String.length s ≤ 203)%nat
    ∧ ((String.length Sample.long_content ≤ 200)%nat → s = Sample.long_content)
    ∧ ((200 < String.length Sample.long_content)%nat →
         s = Str.take 200 Sample.long_content +:+ "..."
         ∧ String.length (Str.take 200 Sample.long_content) = 200%nat).
Proof.
  apply (snippet_bounded (Sample.post_of "t" Sample.long_content) "p" "saas"
           Sample.long_content).
  vm_compute. reflexivity.
Defined.

Example snippet_examples :
  snippet <$> _create_leads_from_posts
                [Sample.post_of "t" "short"; Sample.post_of "t" Sample.long_content]
                "p" "saas"
  = [VStr "short"; VStr (Str.take 200 Sample.long_content +:+ "...")]
  ∧ String.length Sample.long_content = 210%nat.
Proof. split; vm_compute; reflexivity. Qed.

(** ** Summaries *)

Lemma simple_summary_str pd (lead : Lead) (t : string) :
  title lead = VStr t →
  simple_summary pd lead = Ok (set_ai_summary lead (summary_text pd t)).
Proof.
  intros Ht. unfold simple_summary, summary_text. rewrite Ht. simpl.
  by destruct (matching_words _ _).
Qed.

Lemma matching_words_sublist (title_words problem_words : list string) :
  matching_words title_words problem_words `sublist_of` problem_words.
Proof. apply sublist_filter. Qed.

Lemma matching_words_elem (title_words problem_words : list string) (w : string) :
  w ∈ matching_words title_words problem_words
  ↔ w ∈ title_words ∧ w ∈ problem_words.
Proof. unfold matching_words. by rewrite list_elem_of_filter. Qed.

(** A problem word found among the title words is kept as many times as
    the problem description repeats it. *)
Lemma matching_words_occurrences (title_words problem_words : list string) (w : string) :
  w ∈ title_words →
  occurrences w (matching_words title_words problem_words)
  = occurrences w problem_words.
Proof.
  intros Hw. unfold occurrences, matching_words.
  induction problem_words as [|x l IH]; [reflexivity|].
  rewrite !filter_cons. repeat case_decide; subst; simpl;
    rewrite ?filter_cons; repeat case_decide; simpl; try congruence; done.
Qed.

(** C6, as the code has it.  On leads with string titles the annotator
    returns every lead with [ai_summary] set to
    ["Post about {matches joined by ', '} - {title[:80]}..."] when the
    matches are not empty and to
    ["Post about {lowercased problem_description} - {title[:80]}..."]
    otherwise.  The matches are the words of the problem description that
    occur among the title words, in the order of the problem description
    and repeated as often as the problem description repeats them. *)
Theorem simple_summaries_text (leads : list Lead) (pd : string) :
  Forall (λ lead, is_str (title lead)) leads →
  ∃ leads',
    _add_simple_summaries leads pd = Ok leads'
    ∧ Forall2 (λ lead lead', ∃ t matches,
        title lead = VStr t
        ∧ matches = matching_words (Str.split (Str.lower t))
                                   (Str.split (Str.lower pd))
        ∧ matches `sublist_of` Str.split (Str.lower pd)
        ∧ (∀ w, w ∈ matches
                ↔ w ∈ Str.split (Str.lower t) ∧ w ∈ Str.split (Str.lower pd))
        ∧ (∀ w, w ∈ Str.split (Str.lower t) →
                occurrences w matches = occurrences w (Str.split (Str.lower pd)))
        ∧ lead' = set_ai_summary lead
            (match matches with
             | [] => "Post about " +:+ Str.lower pd +:+ " - "
                       +:+ Str.take 80 t +:+ "..."
             | _ => "Post about " +:+ Str.join ", " matches +:+ " - "
                      +:+ Str.take 80 t +:+ "..."
             end)) leads leads'.
Proof.
  intros Hstr.
  set (f := λ lead, set_ai_summary lead
                      (summary_text pd (match title lead with VStr t => t | _ => "" end))).
  exists (map f leads). split.
  - unfold _add_simple_summaries.
    rewrite (for_each_Ok_map (simple_summary pd) f); [reflexivity|].
    eapply Forall_impl; [exact Hstr|]. intros lead [t Ht]. unfold f.
    rewrite Ht. by apply simple_summary_str.
  - induction Hstr as [|lead leads [t Ht] _ IH]; simpl; constructor; [|exact IH].
    exists t, (matching_words (Str.split (Str.lower t)) (Str.split (Str.lower pd))).
    split; [exact Ht|]. split; [reflexivity|].
    split; [apply matching_words_sublist|].
    split; [apply matching_words_elem|].
    split; [apply matching_words_occurrences|].
    unfold f, summary_text. rewrite Ht.
    by destruct (matching_words _ _).
Qed.

Lemma simple_summaries_text_witness :
  ∃ leads',
    _add_simple_summaries
      [Sample.lead_titled (VStr "How do I get my first client")]
      "getting first client fast" = Ok leads'
    ∧ ai_summary <$> leads'
      = ["Post about first, client - How do I get my first client..."].
Proof.
  destruct (simple_summaries_text
              [Sample.lead_titled (VStr "How do I get my first client")]
              "getting first client fast") as (leads' & Hrun & Hall).
  { constructor; [|constructor]. by exists "How do I get my first client". }
  exists leads'. split; [exact Hrun|].
  apply Forall2_cons_inv_l in Hall
    as (lead' & rest & (t & matches & Ht & -> & _ & _ & _ & ->) & Hrest & ->).
  apply Forall2_nil_inv_l in Hrest as ->.
  injection Ht as <-. vm_compute. reflexivity.
Defined.

(** The example of the summary rule, and a title of more than 80
    characters with no matching word. *)
Example summary_examples :
  ai_summary <$> default []
    (match _add_simple_summaries
             [Sample.lead_titled (VStr "How do I get my first client");
              Sample.lead_titled (VStr Sample.long_content)]
             "Getting first client fast" with
     | Ok l => Some l
     | Raise _ => None
     end)
  = ["Post about first, client - How do I get my first client...";
     "Post about getting first client fast - " +:+ Str.take 80 Sample.long_content +:+ "..."].
Proof. vm_compute. reflexivity. Qed.

(** C6, as claimed, fails.  The matches are not a set: a word that the
    problem description repeats is repeated in the summary. *)
Lemma summary_repeats_matches :
  _add_simple_summaries [Sample.lead_titled (VStr "Client")] "client client"
  = Ok [set_ai_summary (Sample.lead_titled (VStr "Client"))
          "Post about client, client - Client..."]
  ∧ ¬ NoDup (matching_words (Str.split (Str.lower "Client"))
                            (Str.split (Str.lower "client client"))).
Proof.
  split; [vm_compute; reflexivity|].
  assert (matching_words (Str.split (Str.lower "Client"))
                         (Str.split (Str.lower "client client"))
          = ["client"; "client"]) as -> by (vm_compute; reflexivity).
  intros [Hnin _]%NoDup_cons. apply Hnin. left.
Qed.

Lemma fallback_summary_sliceable pd (lead : Lead) :
  sliceable (title lead) →
  ∃ head, py_slice_to 100 (title lead) = Ok head
          ∧ fallback_summary pd lead
            = Ok (set_ai_summary lead
                    ("Post about " +:+ Str.lower pd +:+ " - "
                       +:+ py_str head +:+ "...")).
Proof.
  unfold fallback_summary. destruct (title lead); simpl; try done; eauto.
Qed.

(** The handler at work.  When the loop of the [try] raises and every
    title can be sliced, every lead of the batch gets the summary
    ["Post about {lowercased problem_description} - {title[:100]}..."] and
    the annotator returns the whole batch. *)
Theorem fallback_summaries_batch (leads : list Lead) (pd : string) :
  raises (for_each (simple_summary pd) leads) →
  Forall (λ lead, sliceable (title lead)) leads →
  ∃ leads',
    _add_simple_summaries leads pd = Ok leads'
    ∧ Forall2 (λ lead lead', ∃ head,
        py_slice_to 100 (title lead) = Ok head
        ∧ lead' = set_ai_summary lead
            ("Post about " +:+ Str.lower pd +:+ " - "
               +:+ py_str head +:+ "...")) leads leads'.
Proof.
  intros [e He] Hsl. unfold _add_simple_summaries. rewrite He. clear He.
  induction Hsl as [|lead leads Hl _ (leads' & Hrun & Hall)]; simpl.
  - exists []. split; [reflexivity | constructor].
  - destruct (fallback_summary_sliceable pd lead Hl) as (head & Hhead & ->); simpl.
    rewrite Hrun; simpl. eexists; split; [reflexivity|].
    constructor; [by exists head | exact Hall].
Qed.

Lemma fallback_summaries_batch_witness :
  ∃ leads',
    _add_simple_summaries
      [Sample.lead_titled (VStr "A title"); Sample.lead_titled (VList [])]
      "Pricing" = Ok leads'
    ∧ ai_summary <$> leads'
      = ["Post about pricing - A title..."; "Post about pricing - []..."].
Proof.
  destruct (fallback_summaries_batch
              [Sample.lead_titled (VStr "A title"); Sample.lead_titled (VList [])]
              "Pricing") as (leads' & Hrun & Hall).
  { exists AttributeError. vm_compute. reflexivity. }
  { repeat constructor. }
  exists leads'. split; [exact Hrun|].
  apply Forall2_cons_inv_l in Hall as (l1 & rest & (h1 & H1 & ->) & Hrest & ->).
  apply Forall2_cons_inv_l in Hrest as (l2 & rest' & (h2 & H2 & ->) & Hrest & ->).
  apply Forall2_nil_inv_l in Hrest as ->.
  injection H1 as <-. injection H2 as <-. vm_compute. reflexivity.
Defined.

(** X26.  When a title can be neither lowercased nor sliced ([None] or a
    number), the loop of the [try] raises, the handler raises too, and the
    failure leaves [_add_simple_summaries]. *)
Lemma fallback_propagates (leads : list Lead) (pd : string) :
  (∃ lead, lead ∈ leads ∧ ¬ sliceable (title lead)) →
  raises (_add_simple_summaries leads pd).
Proof.
  intros (lead & Hin & Hns). unfold _add_simple_summaries.
  assert (simple_summary pd lead = Raise AttributeError) as Hs.
  { unfold simple_summary. destruct (title lead); simpl in *; try done; tauto. }
  assert (fallback_summary pd lead = Raise TypeError) as Hf.
  { unfold fallback_summary. destruct (title lead); simpl in *; try done; tauto. }
  destruct (for_each_raises_elem (simple_summary pd) leads lead _ Hin Hs) as [e ->].
  exact (for_each_raises_elem (fallback_summary pd) leads lead _ Hin Hf).
Qed.


(** ** The pipeline *)

Lemma metrics_or_empty_Some (d : Metrics) : metrics_or_empty (Some d) = d.
Proof. unfold metrics_or_empty. by case_decide. Qed.

Lemma lookup_keywords_metrics st bt it :
  _last_metrics (snd (lookup_keywords st bt it)) = _last_metrics st.
Proof. unfold lookup_keywords. by destruct (truthy it). Qed.

Lemma pipeline_store threshold enhance_query st posts pd bt it :
  snd (pipeline threshold enhance_query st posts pd bt it)
  = snd (lookup_keywords st bt it).
Proof.
  unfold pipeline, _rule_based_filter, rule_based_scored.
  by destruct (lookup_keywords st bt it).
Qed.

(** [filter_posts] by cases on the outcome of the [try] body. *)
Lemma filter_posts_cases threshold enhance_query st posts pd bt it :
  filter_posts threshold enhance_query st posts pd bt it
  = let st' := snd (lookup_keywords (with_reset st posts) bt it) in
    match fst (pipeline threshold enhance_query (with_reset st posts) posts pd bt it) with
    | Ok (filtered_posts, leads) =>
        let m := update_metrics (reset_metrics posts) filtered_posts leads in
        ((leads, m),
         mkStore (BUSINESS_MAPPINGS st') (INDUSTRY_MAPPINGS st') (Some m))
    | Raise _ => (([], reset_metrics posts), st')
    end.
Proof.
  unfold filter_posts.
  pose proof (pipeline_store threshold enhance_query (with_reset st posts) posts pd bt it) as Hst.
  pose proof (lookup_keywords_metrics (with_reset st posts) bt it) as Hm.
  destruct (pipeline _ _ _ _ _ _ _) as [[[fp leads]|e] st1]; simpl in *; subst st1.
  - by rewrite Hm.
  - by rewrite Hm, metrics_or_empty_Some.
Qed.

Lemma pipeline_raises_enhancer threshold enhance_query st posts pd bt it e :
  enhance_query pd bt = Raise e →
  fst (pipeline threshold enhance_query st posts pd bt it) = Raise e.
Proof.
  intros He. unfold pipeline, _rule_based_filter, rule_based_scored.
  destruct (lookup_keywords st bt it). by rewrite He.
Qed.

Lemma pipeline_raises_filter threshold enhance_query st posts pd bt it e :
  fst (_rule_based_filter threshold enhance_query st posts pd bt it) = Raise e →
  fst (pipeline threshold enhance_query st posts pd bt it) = Raise e.
Proof.
  unfold pipeline.
  destruct (_rule_based_filter _ _ _ _ _ _ _) as [r st']; simpl. by intros ->.
Qed.

(** C8.  When the body of the [try] raises, [filter_posts] returns the
    empty lead list together with the metrics recorded before the [try]
    (the input count, zero filtered posts and the strategy tags), which
    are also what [get_last_metrics] then returns. *)
Theorem filter_posts_degrades threshold enhance_query st posts pd bt it :
  raises (fst (pipeline threshold enhance_query (with_reset st posts) posts pd bt it)) →
  fst (filter_posts threshold enhance_query st posts pd bt it)
  = ([], reset_metrics posts)
  ∧ reset_metrics posts !! "posts_analyzed" = Some (MInt (Z.of_nat (length posts)))
  ∧ get_last_metrics (snd (filter_posts threshold enhance_query st posts pd bt it))
    = Some (reset_metrics posts).
Proof.
  intros [e He]. rewrite filter_posts_cases, He. simpl.
  split; [reflexivity|]. split; [reflexivity|].
  unfold get_last_metrics. by rewrite lookup_keywords_metrics.
Qed.

Lemma filter_posts_degrades_witness :
  fst (filter_posts 5 Sample.failing_enhancer Sample.small_store
         Sample.ranking_posts "pricing" "saas" (Some "tech"))
  = ([], reset_metrics Sample.ranking_posts)
  ∧ reset_metrics Sample.ranking_posts !! "posts_analyzed"
    = Some (MInt (Z.of_nat (length Sample.ranking_posts)))
  ∧ get_last_metrics
      (snd (filter_posts 5 Sample.failing_enhancer Sample.small_store
              Sample.ranking_posts "pricing" "saas" (Some "tech")))
    = Some (reset_metrics Sample.ranking_posts).
Proof.
  apply (filter_posts_degrades 5 Sample.failing_enhancer Sample.small_store
           Sample.ranking_posts "pricing" "saas" (Some "tech")).
  exists (CollaboratorError "enhancer unavailable"). vm_compute. reflexivity.
Defined.

(** A post whose title is not a string makes the scoring raise; the caller
    still gets the empty result. *)
Example filter_posts_malformed_post :
  fst (filter_posts 5 Sample.no_keywords Sample.empty_store
         [Sample.post_of "help" ""; {[ "title" := VList [] ]}] "pricing" "saas" None)
  = ([], reset_metrics [Sample.post_of "help" ""; {[ "title" := VList [] ]}]).
Proof. vm_compute. reflexivity. Qed.

(** C9, as the code has it.  On the empty document sequence [filter_posts]
    returns the empty lead list and metrics whose input count and filtered
    count are zero; the output lead count is recorded, as zero, when the
    enhancer returns, and is not recorded when the enhancer raises. *)
Theorem filter_posts_empty threshold enhance_query st pd bt it :
  fst (fst (filter_posts threshold enhance_query st [] pd bt it)) = []
  ∧ snd (fst (filter_posts threshold enhance_query st [] pd bt it)) !! "posts_analyzed"
    = Some (MInt 0)
  ∧ snd (fst (filter_posts threshold enhance_query st [] pd bt it)) !! "posts_filtered"
    = Some (MInt 0)
  ∧ snd (fst (filter_posts threshold enhance_query st [] pd bt it)) !! "results_returned"
    = match enhance_query pd bt with
      | Ok _ => Some (MInt 0)
      | Raise _ => None
      end.
Proof.
  rewrite filter_posts_cases.
  unfold pipeline, _rule_based_filter, rule_based_scored.
  destruct (lookup_keywords (with_reset st []) bt it) as [bk st1].
  destruct (enhance_query pd bt) as [ek|e]; simpl; repeat split.
Qed.

(** C9, as claimed, fails.  When the enhancer raises, the metrics returned
    for the empty sequence hold no output lead count. *)
Lemma empty_run_without_lead_count :
  fst (filter_posts 5 Sample.failing_enhancer Sample.empty_store [] "pricing" "saas" None)
  = ([], reset_metrics [])
  ∧ reset_metrics [] !! "results_returned" = None
  ∧ reset_metrics [] !! "results_returned" ≠ Some (MInt 0).
Proof.
  split; [vm_compute; reflexivity|]. split; [vm_compute; reflexivity|].
  intros H. vm_compute in H. discriminate.
Qed.

Example empty_run_with_enhancer :
  fst (filter_posts 5 Sample.no_keywords Sample.small_store [] "pricing" "saas" (Some "tech"))
  = ([], update_metrics (reset_metrics []) [] []).
Proof. vm_compute. reflexivity. Qed.

(** ** State left behind by a run *)

(** X22.  Without an industry category ([None] or the empty string), a run
    leaves both tables as they were. *)
Lemma tables_unchanged_without_industry threshold enhance_query st posts pd bt it :
  truthy it = false →
  BUSINESS_MAPPINGS (snd (filter_posts threshold enhance_query st posts pd bt it))
  = BUSINESS_MAPPINGS st
  ∧ INDUSTRY_MAPPINGS (snd (filter_posts threshold enhance_query st posts pd bt it))
    = INDUSTRY_MAPPINGS st.
Proof.
  intros Hit. rewrite filter_posts_cases. unfold lookup_keywords. rewrite Hit. simpl.
  by destruct (fst (pipeline _ _ _ _ _ _ _)) as [[fp leads]|e].
Qed.

(** X23.  With an industry category, a run appends the industry keywords
    to the keyword list stored for the business category, whether the run
    then succeeds or fails. *)
Lemma business_table_extended threshold enhance_query st posts pd bt it entry stored :
  truthy it = true →
  BUSINESS_MAPPINGS st !! bt = Some entry →
  entry !! "keywords" = Some stored →
  mapping_keywords
    (BUSINESS_MAPPINGS (snd (filter_posts threshold enhance_query st posts pd bt it))) bt
  = stored ++ mapping_keywords (INDUSTRY_MAPPINGS st) (default "" it).
Proof.
  intros Hit Hbt Hkw. rewrite filter_posts_cases. unfold lookup_keywords.
  rewrite Hit. simpl.
  assert (mapping_keywords
            (extend_in_place (BUSINESS_MAPPINGS st) bt
               (mapping_keywords (INDUSTRY_MAPPINGS st) (default "" it))) bt
          = stored ++ mapping_keywords (INDUSTRY_MAPPINGS st) (default "" it)) as H.
  { unfold extend_in_place. rewrite Hbt, Hkw. unfold mapping_keywords at 1.
    rewrite lookup_insert_eq. simpl. by rewrite lookup_insert_eq. }
  by destruct (fst (pipeline _ _ _ _ _ _ _)) as [[fp leads]|e].
Qed.

(** C2, evaluated.  Two runs with the same arguments, business category
    ["saas"] and industry category ["tech"], threshold 7: the first run
    changes the stored keyword list of ["saas"] from [["client"]] to
    [["client"; "startup"]], scores the post 6 and returns no lead; the
    second run finds the longer list, extends it again, scores the same
    post 9 and returns it as a lead. *)
Theorem repeated_run_differs :
  let run st := filter_posts 7 Sample.no_keywords st Sample.startup_posts
                             "" "saas" (Some "tech") in
  let first := run Sample.small_store in
  let second := run (snd first) in
  mapping_keywords (BUSINESS_MAPPINGS Sample.small_store) "saas" = ["client"]
  ∧ mapping_keywords (BUSINESS_MAPPINGS (snd first)) "saas" = ["client"; "startup"]
  ∧ mapping_keywords (BUSINESS_MAPPINGS (snd second)) "saas"
    = ["client"; "startup"; "startup"]
  ∧ BUSINESS_MAPPINGS (snd first) ≠ BUSINESS_MAPPINGS Sample.small_store
  ∧ fst (fst first) = []
  ∧ ai_relevance_score <$> fst (fst second) = [VInt 9]
  ∧ fst (fst first) ≠ fst (fst second).
Proof.
  cbv zeta.
  assert (mapping_keywords
            (BUSINESS_MAPPINGS
               (snd (filter_posts 7 Sample.no_keywords Sample.small_store
                       Sample.startup_posts "" "saas" (Some "tech")))) "saas"
          = ["client"; "startup"]) as H1 by (vm_compute; reflexivity).
  assert (fst (fst (filter_posts 7 Sample.no_keywords Sample.small_store
                      Sample.startup_posts "" "saas" (Some "tech"))) = [])
    as H2 by (vm_compute; reflexivity).
  assert (ai_relevance_score <$>
            fst (fst (filter_posts 7 Sample.no_keywords
                        (snd (filter_posts 7 Sample.no_keywords Sample.small_store
                                Sample.startup_posts "" "saas" (Some "tech")))
                        Sample.startup_posts "" "saas" (Some "tech")))
          = [VInt 9]) as H3 by (vm_compute; reflexivity).
  split; [vm_compute; reflexivity|]. split; [exact H1|].
  split; [vm_compute; reflexivity|].
  split; [intros Heq; rewrite Heq in H1; vm_compute in H1; discriminate|].
  split; [exact H2|]. split; [exact H3|].
  intros Heq. rewrite <- Heq, H2 in H3. discriminate.
Qed.

(** ** Leads returned by the pipeline *)

Lemma for_each_Forall2 {A B : Type} (R : A → B → Prop) (body : A → result B)
    (l : list A) (l' : list B) :
  (∀ x y, body x = Ok y → R x y) →
  for_each body l = Ok l' → Forall2 R l l'.
Proof.
  intros HR. revert l'. induction l as [|x l IH]; intros l'; simpl.
  - intros [= <-]. constructor.
  - destruct (body x) as [y|e] eqn:Hx; simpl; [|discriminate].
    destruct (for_each body l) as [ys|e]; simpl; [|discriminate].
    intros [= <-]. constructor; [by apply HR | by apply IH].
Qed.

Lemma py_lower_Ok (v : pyval) (s : string) : py_lower v = Ok s → is_str v.
Proof. destruct v; simpl; try discriminate. intros _. by eexists. Qed.

(** A post that was given a score has a string title and content, and so
    has its scored copy. *)
Lemma scored_as_well_formed ak ek pd (post d : Post) :
  scored_as ak ek pd post d → well_formed post ∧ well_formed d.
Proof.
  intros (sc & Hsc & ->). unfold post_score, search_text in Hsc.
  destruct (py_lower (post_get post "title" (VStr ""))) as [t|e] eqn:Ht;
    simpl in Hsc; [|discriminate].
  destruct (py_lower (post_get post "content" (VStr ""))) as [c|e] eqn:Hc;
    simpl in Hsc; [|discriminate].
  apply py_lower_Ok in Ht, Hc. unfold well_formed.
  by rewrite !post_get_insert_ne.
Qed.

Lemma make_lead_bounded (post : Post) (bt : string) (lead : Lead) :
  well_formed post → make_lead post bt = Ok lead →
  bounded_snippet lead ∧ is_str (title lead).
Proof.
  intros [Ht [c Hc]]. unfold make_lead, make_snippet. rewrite Hc. simpl.
  destruct (Nat.ltb_spec 200 (String.length c)); simpl; intros [= <-]; simpl.
  - split; [|exact Ht]. eexists; split; [reflexivity|].
    rewrite length_app_string, length_take.
    change (String.length "...") with 3%nat. lia.
  - split; [|exact Ht]. exists c. split; [reflexivity | lia].
Qed.

Lemma create_leads_bounded (posts : list Post) (pd bt : string) :
  Forall well_formed posts →
  Forall (λ lead, bounded_snippet lead ∧ is_str (title lead))
         (_create_leads_from_posts posts pd bt).
Proof.
  induction 1 as [|post posts Hp _ IH]; simpl; [constructor|].
  destruct (make_lead post bt) as [lead|e] eqn:Hl; [|exact IH].
  constructor; [by eapply make_lead_bounded | exact IH].
Qed.

(** The annotator only writes [ai_summary]. *)
Lemma add_simple_summaries_frame (leads leads' : list Lead) (pd : string) :
  _add_simple_summaries leads pd = Ok leads' →
  Forall2 (λ lead lead', ∃ summary, lead' = set_ai_summary lead summary)
          leads leads'.
Proof.
  unfold _add_simple_summaries.
  destruct (for_each (simple_summary pd) leads) as [l|e] eqn:Htry.
  - intros [= <-]. eapply for_each_Forall2; [|exact Htry].
    intros lead lead'. unfold simple_summary.
    destruct (py_lower (title lead)); simpl; [|discriminate].
    destruct (py_slice_to 80 (title lead)); simpl; [|discriminate].
    intros [= <-]. by eexists.
  - intros Hexc. eapply for_each_Forall2; [|exact Hexc].
    intros lead lead'. unfold fallback_summary.
    destruct (py_slice_to 100 (title lead)); simpl; [|discriminate].
    intros [= <-]. by eexists.
Qed.

Lemma pipeline_inv threshold enhance_query st posts pd bt it fp leads :
  fst (pipeline threshold enhance_query st posts pd bt it) = Ok (fp, leads) →
  fst (_rule_based_filter threshold enhance_query st posts pd bt it) = Ok fp
  ∧ (leads = _create_leads_from_posts fp pd bt
     ∨ _add_simple_summaries (_create_leads_from_posts fp pd bt) pd = Ok leads).
Proof.
  unfold pipeline.
  destruct (_rule_based_filter _ _ _ _ _ _ _) as [[out|e] st']; simpl; [|discriminate].
  destruct (_create_leads_from_posts out pd bt) as [|lead rest] eqn:Hleads; simpl.
  - intros [= <- <-]. split; [reflexivity | left; by rewrite ?Hleads].
  - destruct (_add_simple_summaries (lead :: rest) pd) as [l|e] eqn:Hsum; simpl;
      [|discriminate].
    intros [= <- <-]. split; [reflexivity | right; rewrite ?Hleads; exact Hsum].
Qed.

Lemma scored_as_keeps_well_formed ak ek pd (post d : Post) :
  well_formed post → scored_as ak ek pd post d → well_formed d.
Proof.
  intros Hwf (sc & _ & ->). unfold well_formed. by rewrite !post_get_insert_ne.
Qed.

Lemma scored_keep_well_formed ak ek pd (posts D : list Post) :
  Forall well_formed posts → Forall2 (scored_as ak ek pd) posts D →
  Forall well_formed D.
Proof.
  intros Hwf Hall. induction Hall as [|post d posts' D' Hd _ IH]; [constructor|].
  apply Forall_cons in Hwf as [Hp Hwf].
  constructor; [by eapply scored_as_keeps_well_formed | by apply IH].
Qed.

(** X1.  When the title and the content of every input post are strings,
    every lead that [filter_posts] returns has a string snippet of at most
    203 characters. *)
Theorem filter_posts_snippets threshold enhance_query st posts pd bt it :
  Forall well_formed posts →
  Forall bounded_snippet
         (fst (fst (filter_posts threshold enhance_query st posts pd bt it))).
Proof.
  intros Hwf. rewrite filter_posts_cases.
  destruct (fst (pipeline _ _ _ _ _ _ _)) as [[fp leads]|e] eqn:Hp; simpl;
    [|constructor].
  apply pipeline_inv in Hp as [Hfilter Hleads].
  destruct (_rule_based_filter _ _ _ _ _ _ _) as [r st'] eqn:Hrun.
  simpl in Hfilter. subst r.
  apply rule_based_filter_inv in Hrun
    as (ek & D & filtered & _ & _ & Hloop & -> & _).
  apply scoring_loop_spec in Hloop as [Hall ->]. simpl in *.
  pose proof (scored_keep_well_formed _ _ _ _ _ Hwf Hall) as HD.
  assert (Forall well_formed
            (sort_desc relevance_score
               (filter (λ d, threshold ≤ relevance_score d) D))) as Hout.
  { rewrite sort_desc_perm. rewrite Forall_forall in HD.
    apply Forall_forall. intros d [_ Hd]%list_elem_of_filter. by apply HD. }
  pose proof (create_leads_bounded _ pd bt Hout) as Hb.
  destruct Hleads as [-> | Hsum].
  - eapply Forall_impl; [exact Hb|]. by intros lead [? _].
  - apply add_simple_summaries_frame in Hsum.
    revert Hb. induction Hsum as [|lead lead' l l' [summary ->] _ IH];
      intros Hb; [constructor|].
    apply Forall_cons in Hb as [[Hlead _] Hb].
    constructor; [exact Hlead | by apply IH].
Qed.

Lemma filter_posts_snippets_witness :
  Forall bounded_snippet
         (fst (fst (filter_posts 0 Sample.no_keywords Sample.empty_store
                      [Sample.post_of "help" Sample.long_content;
                       Sample.post_of "pricing" "short"]
                      "pricing" "saas" None))).
Proof.
  apply (filter_posts_snippets 0 Sample.no_keywords Sample.empty_store
           [Sample.post_of "help" Sample.long_content;
            Sample.post_of "pricing" "short"] "pricing" "saas" None).
  repeat constructor; eexists; vm_compute; reflexivity.
Defined.

(** A post whose title or content is not a string makes the filter raise,
    whatever the enhancer returns. *)
Lemma scoring_loop_raises threshold ak ek pd (posts acc : list Post) :
  (∃ post, post ∈ posts ∧ ¬ well_formed post) →
  raises (scoring_loop threshold ak ek pd posts acc).
Proof.
  intros (post & Hin & Hnwf). revert acc.
  induction posts as [|p posts IH]; intros acc; [by apply elem_of_nil in Hin|].
  simpl. destruct (post_score ak ek pd p) as [sc|e] eqn:Hsc; simpl; [|by eexists].
  apply elem_of_cons in Hin as [<-|Hin].
  - exfalso. apply Hnwf.
    assert (scored_as ak ek pd post (<["relevance_score" := VInt sc]> post))
      as Hs by by exists sc.
    by apply scored_as_well_formed in Hs as [? _].
  - destruct (IH Hin (if threshold <=? sc
                      then acc ++ [<["relevance_score" := VInt sc]> p]
                      else acc)) as [e ->].
    by exists e.
Qed.

Lemma rule_based_filter_raises threshold enhance_query st posts pd bt it :
  (∃ post, post ∈ posts ∧ ¬ well_formed post) →
  raises (fst (_rule_based_filter threshold enhance_query st posts pd bt it)).
Proof.
  intros Hbad. unfold _rule_based_filter, rule_based_scored.
  destruct (lookup_keywords st bt it) as [bk st1]; simpl.
  destruct (enhance_query pd bt) as [ek|e]; simpl; [|by eexists].
  destruct (debug_titles posts) as [l|e]; simpl; [|by eexists].
  destruct (scoring_loop_raises threshold (bk ++ ek) ek pd posts [] Hbad) as [e ->].
  by exists e.
Qed.

(** ** What a run returns *)

Lemma rule_based_filter_reset threshold enhance_query st posts' posts pd bt it :
  fst (_rule_based_filter threshold enhance_query (with_reset st posts') posts pd bt it)
  = fst (_rule_based_filter threshold enhance_query st posts pd bt it).
Proof.
  unfold _rule_based_filter, rule_based_scored, lookup_keywords, with_reset.
  simpl. by destruct (truthy it).
Qed.

Lemma pipeline_reset threshold enhance_query st posts' posts pd bt it :
  fst (pipeline threshold enhance_query (with_reset st posts') posts pd bt it)
  = fst (pipeline threshold enhance_query st posts pd bt it).
Proof.
  unfold pipeline.
  pose proof (rule_based_filter_reset threshold enhance_query st posts' posts pd bt it) as H.
  destruct (_rule_based_filter _ _ (with_reset st posts') _ _ _ _) as [r1 s1].
  destruct (_rule_based_filter _ _ st _ _ _ _) as [r2 s2].
  simpl in H. by subst.
Qed.

Lemma scored_as_scored_post ak ek pd (post d : Post) :
  scored_as ak ek pd post d → scored_post d.
Proof.
  intros Hd. split; [by apply scored_as_well_formed in Hd as [_ ?]|].
  destruct Hd as (sc & _ & ->). exists sc. by rewrite lookup_insert_eq.
Qed.

Lemma rule_based_filter_scored threshold enhance_query st posts pd bt it fp :
  fst (_rule_based_filter threshold enhance_query st posts pd bt it) = Ok fp →
  Forall scored_post fp
  ∧ Forall (λ d, threshold ≤ relevance_score d) fp
  ∧ StronglySorted (desc relevance_score) fp
  ∧ (length fp ≤ length posts)%nat.
Proof.
  intros Hfp. destruct (_rule_based_filter _ _ _ _ _ _ _) as [r st'] eqn:Hrun.
  simpl in Hfp. subst r.
  apply rule_based_filter_inv in Hrun as (ek & D & filtered & _ & _ & Hloop & -> & _).
  apply scoring_loop_spec in Hloop as [Hall ->]. simpl.
  assert (Forall scored_post D) as HD.
  { clear -Hall. induction Hall as [|post d posts' D' Hd _ IH]; constructor;
      [by eapply scored_as_scored_post | exact IH]. }
  repeat split.
  - rewrite sort_desc_perm. rewrite Forall_forall in HD.
    apply Forall_forall. intros d [_ Hd]%list_elem_of_filter. by apply HD.
  - rewrite sort_desc_perm.
    apply Forall_forall. by intros d [Hd _]%list_elem_of_filter.
  - apply sort_desc_sorted.
  - rewrite sort_desc_perm. apply Forall2_length in Hall. rewrite Hall.
    apply length_filter.
Qed.

Lemma make_lead_scored (post : Post) (bt : string) :
  scored_post post →
  ∃ t s,
    post_get post "title" (VStr "") = VStr t
    ∧ make_lead post bt
      = Ok (mkLead (VStr t)
                   (post_get post "subreddit" (VStr ""))
                   (VStr s)
                   (post_get post "permalink" (VStr ""))
                   (post_get post "author" (VStr ""))
                   (post_get post "created_utc" (VInt 0))
                   (post_get post "score" (VInt 0))
                   []
                   (VInt (relevance_score post))
                   "Medium" bt "General" "").
Proof.
  intros [[[t Ht] [c Hc]] [z Hz]].
  assert (post_get post "relevance_score" (VInt 0) = VInt (relevance_score post)) as Hr.
  { unfold post_get, relevance_score. by rewrite Hz. }
  unfold make_lead, make_snippet. rewrite Hc, Ht, Hr. simpl.
  destruct (200 <? String.length c)%nat; simpl; eauto.
Qed.

(** What [_create_leads_from_posts] and [_add_simple_summaries] make of
    scored posts: one lead per post, in order. *)
Lemma leads_of_scored_posts (fp : list Post) (pd bt : string) :
  Forall scored_post fp →
  ∃ leads,
    Forall2 (lead_of pd bt) fp leads
    ∧ match _create_leads_from_posts fp pd bt with
      | [] => fp = [] ∧ leads = []
      | leads0 => _add_simple_summaries leads0 pd = Ok leads
      end.
Proof.
  intros Hfp.
  assert (∃ leads0,
            _create_leads_from_posts fp pd bt = leads0
            ∧ Forall2 (λ post lead0, ∃ t, title lead0 = VStr t
                         ∧ lead_of pd bt post
                             (set_ai_summary lead0 (summary_text pd t)))
                      fp leads0) as (leads0 & Hcreate & Hall).
  { induction Hfp as [|post fp Hp _ (leads0 & Hcreate & Hall)]; simpl.
    - exists []. split; [reflexivity | constructor].
    - destruct (make_lead_scored post bt Hp) as (t & s & Ht & ->).
      rewrite Hcreate. eexists; split; [reflexivity|].
      constructor; [|exact Hall]. exists t. split; [reflexivity|].
      by exists t, s. }
  set (f := λ lead, set_ai_summary lead
                      (summary_text pd (match title lead with VStr t => t | _ => "" end))).
  exists (map f leads0). split.
  - clear Hcreate Hfp. induction Hall as [|post lead0 fp' leads0' (t & Ht & Hlead) _ IH];
      simpl; [constructor|]. constructor; [|exact IH].
    unfold f. by rewrite Ht.
  - rewrite Hcreate. destruct leads0 as [|lead0 rest] eqn:Hl0.
    + apply Forall2_nil_inv_r in Hall. by split.
    + rewrite <- Hl0 in *. unfold _add_simple_summaries.
      rewrite (for_each_Ok_map (simple_summary pd) f); [reflexivity|].
      clear -Hall. induction Hall as [|post l fp' ls (t & Ht & _) _ IH];
        [constructor|]. constructor; [|exact IH].
      unfold f. rewrite Ht. by apply simple_summary_str.
Qed.

Lemma pipeline_leads threshold enhance_query st posts pd bt it fp :
  fst (_rule_based_filter threshold enhance_query st posts pd bt it) = Ok fp →
  ∃ leads,
    fst (pipeline threshold enhance_query st posts pd bt it) = Ok (fp, leads)
    ∧ Forall2 (lead_of pd bt) fp leads.
Proof.
  intros Hfp. pose proof (rule_based_filter_scored _ _ _ _ _ _ _ _ Hfp) as [Hsc _].
  destruct (leads_of_scored_posts fp pd bt Hsc) as (leads & Hall & Hrun).
  exists leads. split; [|exact Hall].
  unfold pipeline.
  destruct (_rule_based_filter _ _ _ _ _ _ _) as [r st']. simpl in Hfp. subst r.
  simpl. destruct (_create_leads_from_posts fp pd bt) as [|lead0 rest].
  - destruct Hrun as [-> ->]. reflexivity.
  - rewrite Hrun. reflexivity.
Qed.

Lemma pipeline_Ok_filter threshold enhance_query st posts pd bt it fp leads :
  fst (pipeline threshold enhance_query st posts pd bt it) = Ok (fp, leads) →
  fst (_rule_based_filter threshold enhance_query st posts pd bt it) = Ok fp.
Proof. intros H. by apply pipeline_inv in H as [? _]. Qed.

Lemma rule_based_filter_scored_wf threshold enhance_query st posts pd bt it fp :
  Forall well_formed posts →
  fst (_rule_based_filter threshold enhance_query st posts pd bt it) = Ok fp →
  Forall scored_post fp ∧ (length fp ≤ length posts)%nat.
Proof.
  intros Hwf Hfp. destruct (_rule_based_filter _ _ _ _ _ _ _) as [r st'] eqn:Hrun.
  simpl in Hfp. subst r.
  apply rule_based_filter_inv in Hrun as (ek & D & filtered & _ & _ & Hloop & -> & _).
  apply scoring_loop_spec in Hloop as [Hall ->]. simpl.
  assert (Forall scored_post D) as HD.
  { pose proof (scored_keep_well_formed _ _ _ _ _ Hwf Hall) as HwfD.
    clear Hwf. induction Hall as [|post d posts' D' (sc & _ & ->) _ IH];
      [constructor|].
    apply Forall_cons in HwfD as [Hd HwfD].
    constructor; [|by apply IH].
    split; [exact Hd|]. exists sc. by rewrite lookup_insert_eq. }
  split.
  - rewrite sort_desc_perm. rewrite Forall_forall in HD.
    apply Forall_forall. intros d [_ Hd]%list_elem_of_filter. by apply HD.
  - rewrite sort_desc_perm. apply Forall2_length in Hall. rewrite Hall.
    apply length_filter.
Qed.

Lemma pipeline_leads_scored threshold enhance_query st posts pd bt it fp :
  Forall scored_post fp →
  fst (_rule_based_filter threshold enhance_query st posts pd bt it) = Ok fp →
  ∃ leads,
    fst (pipeline threshold enhance_query st posts pd bt it) = Ok (fp, leads)
    ∧ Forall2 (lead_of pd bt) fp leads.
Proof.
  intros Hsc Hfp.
  destruct (leads_of_scored_posts fp pd bt Hsc) as (leads & Hall & Hrun).
  exists leads. split; [|exact Hall].
  unfold pipeline.
  destruct (_rule_based_filter _ _ _ _ _ _ _) as [r st']. simpl in Hfp. subst r.
  simpl. destruct (_create_leads_from_posts fp pd bt) as [|lead0 rest].
  - destruct Hrun as [-> ->]. reflexivity.
  - rewrite Hrun. reflexivity.
Qed.

(** X2.  When the title and the content of every input post are strings and
    the rule-based filter returns, [filter_posts] returns one lead per
    filtered post, in ranking order, each carrying the fields and the score
    of its post and the summary of its title; the metrics report the same
    number as filtered posts and as returned leads, which is at most the
    number of input posts. *)
Theorem filter_posts_one_lead_per_post threshold enhance_query st posts pd bt it fp :
  Forall well_formed posts →
  fst (_rule_based_filter threshold enhance_query st posts pd bt it) = Ok fp →
  ∃ leads m,
    fst (filter_posts threshold enhance_query st posts pd bt it) = (leads, m)
    ∧ Forall2 (lead_of pd bt) fp leads
    ∧ m !! "posts_analyzed" = Some (MInt (Z.of_nat (length posts)))
    ∧ m !! "posts_filtered" = Some (MInt (Z.of_nat (length fp)))
    ∧ m !! "results_returned" = Some (MInt (Z.of_nat (length fp)))
    ∧ (length fp ≤ length posts)%nat.
Proof.
  intros Hwf Hfp.
  pose proof (rule_based_filter_scored_wf _ _ _ _ _ _ _ _ Hwf Hfp) as [Hsc Hlen].
  rewrite <- (rule_based_filter_reset _ _ st posts) in Hfp.
  destruct (pipeline_leads_scored _ _ _ _ _ _ _ _ Hsc Hfp) as (leads & Hrun & Hall).
  rewrite filter_posts_cases, Hrun. simpl.
  eexists _, _. split; [reflexivity|]. split; [exact Hall|].
  apply Forall2_length in Hall. unfold update_metrics. rewrite <- Hall.
  repeat split; exact Hlen.
Qed.

Lemma filter_posts_one_lead_per_post_witness :
  ∃ leads m,
    fst (filter_posts 5 Sample.no_keywords Sample.empty_store
           Sample.ranking_posts "pricing" "saas" None) = (leads, m)
    ∧ Forall2 (lead_of "pricing" "saas") Sample.ranking_output leads
    ∧ m !! "posts_analyzed" = Some (MInt (Z.of_nat (length Sample.ranking_posts)))
    ∧ m !! "posts_filtered" = Some (MInt (Z.of_nat (length Sample.ranking_output)))
    ∧ m !! "results_returned" = Some (MInt (Z.of_nat (length Sample.ranking_output)))
    ∧ (length Sample.ranking_output ≤ length Sample.ranking_posts)%nat.
Proof.
  apply (filter_posts_one_lead_per_post 5 Sample.no_keywords Sample.empty_store
           Sample.ranking_posts "pricing" "saas" None Sample.ranking_output).
  - repeat constructor; eexists; vm_compute; reflexivity.
  - vm_compute. reflexivity.
Defined.

Lemma sorted_transfer {A B : Type} (ka : A → Z) (kb : B → Z) (la : list A) (lb : list B) :
  Forall2 (λ a b, kb b = ka a) la lb →
  StronglySorted (desc ka) la → StronglySorted (desc kb) lb.
Proof.
  induction 1 as [|a b la lb Hab Hall IH]; intros Hs; [constructor|].
  apply StronglySorted_inv in Hs as [Hs Ha].
  constructor; [by apply IH|].
  clear -Hab Hall Ha. induction Hall as [|a' b' la lb Hab' _ IH]; [constructor|].
  apply Forall_cons in Ha as [Ha Hrest].
  constructor; [unfold desc in *; lia | by apply IH].
Qed.

Lemma lead_of_relevance pd bt (post : Post) (lead : Lead) :
  lead_of pd bt post lead →
  lead_relevance lead = relevance_score post
  ∧ ai_relevance_score lead = VInt (relevance_score post).
Proof. intros (t & s & _ & ->). by split. Qed.

(** The leads of a run, whatever its outcome, with the filtered posts they
    come from. *)
Lemma filter_posts_leads threshold enhance_query st posts pd bt it :
  ∃ fp,
    Forall2 (lead_of pd bt) fp
            (fst (fst (filter_posts threshold enhance_query st posts pd bt it)))
    ∧ Forall (λ d, threshold ≤ relevance_score d) fp
    ∧ StronglySorted (desc relevance_score) fp.
Proof.
  rewrite filter_posts_cases.
  destruct (fst (pipeline _ _ _ _ _ _ _)) as [[fp leads]|e] eqn:Hp; simpl.
  - pose proof (pipeline_Ok_filter _ _ _ _ _ _ _ _ _ Hp) as Hfp.
    destruct (pipeline_leads _ _ _ _ _ _ _ _ Hfp) as (leads' & Hp' & Hall).
    rewrite Hp in Hp'. injection Hp' as <-.
    apply rule_based_filter_scored in Hfp as (_ & Hthr & Hsorted & _).
    by exists fp.
  - exists []. repeat constructor.
Qed.

(** X3.  Whatever the input, every lead that [filter_posts] returns carries
    an integer score that reaches the threshold, and the leads come in
    descending order of that score. *)
Theorem returned_leads_ranked threshold enhance_query st posts pd bt it :
  Forall (λ lead, ∃ z, ai_relevance_score lead = VInt z ∧ threshold ≤ z)
         (fst (fst (filter_posts threshold enhance_query st posts pd bt it)))
  ∧ StronglySorted (desc lead_relevance)
      (fst (fst (filter_posts threshold enhance_query st posts pd bt it))).
Proof.
  destruct (filter_posts_leads threshold enhance_query st posts pd bt it)
    as (fp & Hall & Hthr & Hsorted).
  split.
  - clear Hsorted. induction Hall as [|post lead fp leads Hl _ IH]; [constructor|].
    apply Forall_cons in Hthr as [Hp Hthr].
    constructor; [|by apply IH].
    apply lead_of_relevance in Hl as [_ ->]. eauto.
  - eapply sorted_transfer; [|exact Hsorted].
    eapply Forall2_impl; [exact Hall|].
    intros post lead Hl. by apply lead_of_relevance in Hl as [-> _].
Qed.

Lemma prefix_app (x b : string) : String.prefix x (x +:+ b) = true.
Proof.
  induction x as [|c x IH]; [by destruct b|].
  change (String c x +:+ b) with (String c (x +:+ b)). simpl.
  by destruct (Ascii.ascii_dec c c).
Qed.

Lemma contains_prefix (x h : string) :
  String.prefix x h = true → Str.contains x h = true.
Proof. intros H. destruct h; cbn [Str.contains]; by rewrite H. Qed.

Lemma contains_cons (x h : string) (c : Ascii.ascii) :
  Str.contains x h = true → Str.contains x (String c h) = true.
Proof. intros H. cbn [Str.contains]. rewrite H. apply orb_true_r. Qed.

Lemma contains_app_r (x a b : string) :
  Str.contains x b = true → Str.contains x (a +:+ b) = true.
Proof.
  intros H. induction a as [|c a IH]; [exact H|].
  change (String c a +:+ b) with (String c (a +:+ b)). by apply contains_cons.
Qed.

(** A string occurs in every text built around it. *)
Lemma contains_middle (x a b : string) : Str.contains x (a +:+ x +:+ b) = true.
Proof. apply contains_app_r, contains_prefix, prefix_app. Qed.

Lemma summary_text_shape (pd t : string) :
  ∃ about, summary_text pd t
           = "Post about " +:+ about +:+ " - " +:+ Str.take 80 t +:+ "...".
Proof. unfold summary_text. destruct (matching_words _ _); eauto. Qed.

Lemma filter_posts_leads_wf threshold enhance_query st posts pd bt it :
  Forall well_formed posts →
  ∃ fp,
    Forall2 (lead_of pd bt) fp
            (fst (fst (filter_posts threshold enhance_query st posts pd bt it))).
Proof.
  intros Hwf. rewrite filter_posts_cases.
  destruct (fst (pipeline _ _ _ _ _ _ _)) as [[fp leads]|e] eqn:Hp; simpl.
  - pose proof (pipeline_Ok_filter _ _ _ _ _ _ _ _ _ Hp) as Hfp.
    pose proof (rule_based_filter_scored_wf _ _ _ _ _ _ _ _ Hwf Hfp) as [Hsc _].
    destruct (pipeline_leads_scored _ _ _ _ _ _ _ _ Hsc Hfp) as (leads' & Hp' & Hall).
    rewrite Hp in Hp'. injection Hp' as <-. by exists fp.
  - exists []. constructor.
Qed.

(** X4.  When the title and the content of every input post are strings,
    every lead that [filter_posts] returns has a string title and a summary
    that begins with ["Post about "] and contains the first 80 characters
    of the title. *)
Theorem returned_summaries_show_title threshold enhance_query st posts pd bt it :
  Forall well_formed posts →
  Forall (λ lead, ∃ t,
            title lead = VStr t
            ∧ ai_summary lead = summary_text pd t
            ∧ String.prefix "Post about " (ai_summary lead) = true
            ∧ Str.contains (Str.take 80 t) (ai_summary lead) = true)
         (fst (fst (filter_posts threshold enhance_query st posts pd bt it))).
Proof.
  intros Hwf.
  destruct (filter_posts_leads_wf threshold enhance_query st posts pd bt it Hwf)
    as (fp & Hall).
  induction Hall as [|post lead fp leads (t & s & _ & ->) _ IH]; constructor;
    [|exact IH].
  exists t. simpl. split; [reflexivity|]. split; [reflexivity|].
  destruct (summary_text_shape pd t) as [about ->].
  split; [apply prefix_app|].
  apply contains_app_r, contains_app_r, contains_middle.
Qed.

Lemma returned_summaries_show_title_witness :
  Forall (λ lead, ∃ t,
            title lead = VStr t
            ∧ ai_summary lead = summary_text "pricing" t
            ∧ String.prefix "Post about " (ai_summary lead) = true
            ∧ Str.contains (Str.take 80 t) (ai_summary lead) = true)
         (fst (fst (filter_posts 5 Sample.no_keywords Sample.empty_store
                      Sample.ranking_posts "pricing" "saas" None))).
Proof.
  apply (returned_summaries_show_title 5 Sample.no_keywords Sample.empty_store
           Sample.ranking_posts "pricing" "saas" None).
  repeat constructor; eexists; vm_compute; reflexivity.
Defined.

(** X5.  One post whose title or content is [None], a number or a list,
    anywhere in the input, empties the result of the whole run:
    [filter_posts] returns no lead and the metrics written before the
    [try]. *)
Theorem malformed_post_empties_run threshold enhance_query st posts pd bt it :
  (∃ post, post ∈ posts
           ∧ (lacks_lower (post_get post "title" (VStr ""))
              ∨ lacks_lower (post_get post "content" (VStr "")))) →
  fst (filter_posts threshold enhance_query st posts pd bt it)
  = ([], reset_metrics posts).
Proof.
  intros (post & Hin & Hbad).
  assert (∃ post, post ∈ posts ∧ ¬ well_formed post) as Hnwf.
  { exists post. split; [exact Hin|]. intros [[t Ht] [c Hc]].
    rewrite Ht, Hc in Hbad. simpl in Hbad. tauto. }
  rewrite filter_posts_cases.
  destruct (rule_based_filter_raises threshold enhance_query
              (with_reset st posts) posts pd bt it Hnwf) as [e He].
  by rewrite (pipeline_raises_filter _ _ _ _ _ _ _ _ He).
Qed.

Lemma malformed_post_empties_run_witness :
  fst (filter_posts 0 Sample.no_keywords Sample.empty_store
         (Sample.ranking_posts ++ [ {[ "title" := VStr "help"; "content" := VNone ]} ])
         "pricing" "saas" None)
  = ([], reset_metrics
           (Sample.ranking_posts ++ [ {[ "title" := VStr "help"; "content" := VNone ]} ])).
Proof.
  apply (malformed_post_empties_run 0 Sample.no_keywords Sample.empty_store
           (Sample.ranking_posts ++ [ {[ "title" := VStr "help"; "content" := VNone ]} ])
           "pricing" "saas" None).
  exists {[ "title" := VStr "help"; "content" := VNone ]}. split.
  - apply elem_of_app. right. left.
  - right. vm_compute. exact I.
Defined.

(** X6.  After a run, [get_last_metrics] returns the metrics that the run
    returned, whether the run succeeded or not. *)
Theorem last_metrics_are_returned_metrics threshold enhance_query st posts pd bt it :
  get_last_metrics (snd (filter_posts threshold enhance_query st posts pd bt it))
  = Some (snd (fst (filter_posts threshold enhance_query st posts pd bt it))).
Proof.
  rewrite filter_posts_cases.
  destruct (fst (pipeline _ _ _ _ _ _ _)) as [[fp leads]|e]; simpl; [reflexivity|].
  unfold get_last_metrics. by rewrite lookup_keywords_metrics.
Qed.

(** X7.  Whatever the input and the outcome, the returned metrics report
    the number of input posts, zero generated summaries, zero tokens, zero
    cost and the tags ["rule_based"] and ["openai"]: attaching summaries
    never changes these counters. *)
Theorem metrics_fixed_fields threshold enhance_query st posts pd bt it :
  let m := snd (fst (filter_posts threshold enhance_query st posts pd bt it)) in
  m !! "posts_analyzed" = Some (MInt (Z.of_nat (length posts)))
  ∧ m !! "summaries_generated" = Some (MInt 0)
  ∧ m !! "tokens_used" = Some (MInt 0)
  ∧ m !! "cost" = Some (MFloat 0)
  ∧ m !! "filter_method" = Some (MStr "rule_based")
  ∧ m !! "summary_method" = Some (MStr "openai").
Proof.
  cbv zeta. rewrite filter_posts_cases.
  destruct (fst (pipeline _ _ _ _ _ _ _)) as [[fp leads]|e]; simpl;
    repeat split.
Qed.




(** In the sample store a run with industry ["tech"] extends the list of
    ["saas"] by ["startup"] and leaves the list of ["tech"] as it was. *)
Example tables_only_grow_example :
  table_get
    (BUSINESS_MAPPINGS
       (snd (filter_posts 7 Sample.no_keywords Sample.small_store
               Sample.startup_posts "" "saas" (Some "tech")))) "saas" "keywords"
  = Some (["client"] ++ ["startup"])
  ∧ table_get
      (INDUSTRY_MAPPINGS
         (snd (filter_posts 7 Sample.no_keywords Sample.small_store
                 Sample.startup_posts "" "saas" (Some "tech")))) "tech" "keywords"
    = Some ["startup"].
Proof. split; vm_compute; reflexivity. Qed.

Lemma tables_unchanged_without_industry_witness :
  BUSINESS_MAPPINGS
    (snd (filter_posts 7 Sample.no_keywords Sample.small_store
            Sample.startup_posts "" "saas" (Some "")))
  = BUSINESS_MAPPINGS Sample.small_store
  ∧ INDUSTRY_MAPPINGS
      (snd (filter_posts 7 Sample.no_keywords Sample.small_store
              Sample.startup_posts "" "saas" (Some "")))
    = INDUSTRY_MAPPINGS Sample.small_store.
Proof.
  apply (tables_unchanged_without_industry 7 Sample.no_keywords Sample.small_store
           Sample.startup_posts "" "saas" (Some "")).
  reflexivity.
Defined.

Lemma business_table_extended_witness :
  mapping_keywords
    (BUSINESS_MAPPINGS
       (snd (filter_posts 7 Sample.failing_enhancer Sample.small_store
               Sample.startup_posts "" "saas" (Some "tech")))) "saas"
  = ["client"] ++ mapping_keywords (INDUSTRY_MAPPINGS Sample.small_store)
                                   (default "" (Some "tech")).
Proof.
  apply (business_table_extended 7 Sample.failing_enhancer Sample.small_store
           Sample.startup_posts "" "saas" (Some "tech")
           {[ "keywords" := ["client"] ]} ["client"]);
    vm_compute; reflexivity.
Defined.

(** ** More on scoring *)

Lemma hits_le_length (p : string → bool) (l : list string) :
  hits p l ≤ Z.of_nat (length l).
Proof.
  unfold hits. induction l as [|k l IH]; simpl; [lia|].
  destruct (p k); simpl; lia.
Qed.

Lemma hits_perm (p : string → bool) (l l' : list string) :
  l ≡ₚ l' → hits p l = hits p l'.
Proof.
  induction 1 as [|k l l' _ IH|k k' l|l l' l'' _ IH1 _ IH2];
    rewrite ?hits_cons; lia.
Qed.

Lemma hits_ext (p q : string → bool) (l : list string) :
  (∀ k, p k = q k) → hits p l = hits q l.
Proof.
  intros Hpq. induction l as [|k l IH]; [reflexivity|].
  by rewrite !hits_cons, Hpq, IH.
Qed.

Lemma hits_fmap (p : string → bool) (f : string → string) (l : list string) :
  hits p (f <$> l) = hits (λ k, p (f k)) l.
Proof.
  induction l as [|k l IH]; [reflexivity|].
  rewrite fmap_cons, !hits_cons, IH. reflexivity.
Qed.

Lemma hits_none (p : string → bool) (l : list string) :
  Forall (λ k, p k = false) l → hits p l = 0.
Proof.
  induction 1 as [|k l Hk _ IH]; [reflexivity|].
  by rewrite hits_cons, Hk, IH.
Qed.

(** X9.  A score is never negative and never exceeds 3 per entry of the
    combined keyword list, 2 per struggle indicator, 4 per entry of the
    enhanced list and 1 per word of the problem description. *)
Theorem score_bounds ak ek pd text :
  0 ≤ text_score ak ek pd text ≤ score_bound ak ek pd.
Proof.
  rewrite text_score_closed_form. unfold score_bound.
  pose proof (hits_nonneg (keyword_hit text) ak).
  pose proof (hits_nonneg (indicator_hit text) struggle_indicators).
  pose proof (hits_nonneg (keyword_hit text) ek).
  pose proof (hits_nonneg (word_hit text) (Str.split (Str.lower pd))).
  pose proof (hits_le_length (keyword_hit text) ak).
  pose proof (hits_le_length (indicator_hit text) struggle_indicators).
  pose proof (hits_le_length (keyword_hit text) ek).
  pose proof (hits_le_length (word_hit text) (Str.split (Str.lower pd))).
  lia.
Qed.

Lemma scored_as_nonneg ak ek pd (post d : Post) :
  scored_as ak ek pd post d → 0 ≤ relevance_score d.
Proof.
  intros (sc & Hsc & ->). rewrite relevance_score_insert.
  unfold post_score in Hsc.
  destruct (search_text post) as [text|e]; simpl in Hsc; [|discriminate].
  injection Hsc as <-. rewrite text_score_closed_form.
  pose proof (hits_nonneg (keyword_hit text) ak).
  pose proof (hits_nonneg (indicator_hit text) struggle_indicators).
  pose proof (hits_nonneg (keyword_hit text) ek).
  pose proof (hits_nonneg (word_hit text) (Str.split (Str.lower pd))).
  lia.
Qed.

(** X10.  With a threshold of zero or less the filter drops nothing: when it
    returns, its output is a rearrangement of the whole scored input. *)
Theorem nonpositive_threshold_keeps_all threshold enhance_query st posts pd bt it D out st' :
  threshold ≤ 0 →
  rule_based_scored threshold enhance_query st posts pd bt it = (Ok (D, out), st') →
  out ≡ₚ D ∧ length out = length posts.
Proof.
  intros Hthr H.
  apply rule_based_scored_inv in H as (ek & filtered & _ & _ & Hloop & ->).
  apply scoring_loop_spec in Hloop as [Hall ->]. simpl.
  assert (filter (λ d, threshold ≤ relevance_score d) D = D) as ->.
  { clear -Hall Hthr. induction Hall as [|post d posts' D' Hd _ IH]; [reflexivity|].
    rewrite filter_cons, IH. apply scored_as_nonneg in Hd.
    case_decide; [reflexivity | lia]. }
  split; [apply sort_desc_perm|].
  rewrite sort_desc_perm. symmetry. by eapply Forall2_length.
Qed.

Lemma nonpositive_threshold_keeps_all_witness :
  sort_desc relevance_score Sample.ranking_scored ≡ₚ Sample.ranking_scored
  ∧ length (sort_desc relevance_score Sample.ranking_scored)
    = length Sample.ranking_posts.
Proof.
  apply (nonpositive_threshold_keeps_all 0 Sample.no_keywords Sample.empty_store
           Sample.ranking_posts "pricing" "saas" None
           Sample.ranking_scored
           (sort_desc relevance_score Sample.ranking_scored) Sample.empty_store).
  - lia.
  - vm_compute. reflexivity.
Defined.

(** X11.  The order of the keywords does not matter: rearranging the
    combined list and the enhanced list leaves every score unchanged. *)
Theorem keyword_order_irrelevant ak ak' ek ek' pd text :
  ak ≡ₚ ak' → ek ≡ₚ ek' →
  text_score ak ek pd text = text_score ak' ek' pd text.
Proof.
  intros Ha He. rewrite !text_score_closed_form.
  by rewrite (hits_perm _ ak ak' Ha), (hits_perm _ ek ek' He).
Qed.

Lemma keyword_order_irrelevant_witness :
  text_score ["client"; "lead"; "sales"] ["lead"; "sales"] "" "sales lead wanted"
  = text_score ["sales"; "client"; "lead"] ["sales"; "lead"] "" "sales lead wanted".
Proof.
  apply (keyword_order_irrelevant ["client"; "lead"; "sales"] ["sales"; "client"; "lead"]
           ["lead"; "sales"] ["sales"; "lead"] "" "sales lead wanted").
  - change (["client"; "lead"] ++ ["sales"] ≡ₚ ["sales"] ++ ["client"; "lead"]).
    apply Permutation_app_comm.
  - apply Permutation_swap.
Defined.

(** X12.  Adding keywords never lowers a score. *)
Theorem more_keywords_never_lower ak ek more_all more_enhanced pd text :
  text_score ak ek pd text
  ≤ text_score (ak ++ more_all) (ek ++ more_enhanced) pd text.
Proof.
  rewrite !text_score_closed_form, !hits_app.
  pose proof (hits_nonneg (keyword_hit text) more_all).
  pose proof (hits_nonneg (keyword_hit text) more_enhanced).
  lia.
Qed.

(** X13.  Matching is by substring, not by word: a keyword of the combined
    list whose lowercase form occurs anywhere inside the search text, also
    inside a longer word, brings the score to 3 or more. *)
Theorem keyword_inside_text_scores ak ek pd (before after k : string) :
  k ∈ ak →
  3 ≤ text_score ak ek pd (before +:+ Str.lower k +:+ after).
Proof.
  intros Hin. rewrite text_score_closed_form.
  assert (keyword_hit (before +:+ Str.lower k +:+ after) k = true) as Hk
    by apply contains_middle.
  pose proof (hits_elem _ k ak Hin Hk).
  pose proof (hits_nonneg (indicator_hit (before +:+ Str.lower k +:+ after))
                struggle_indicators).
  pose proof (hits_nonneg (keyword_hit (before +:+ Str.lower k +:+ after)) ek).
  pose proof (hits_nonneg (word_hit (before +:+ Str.lower k +:+ after))
                (Str.split (Str.lower pd))).
  lia.
Qed.

Lemma keyword_inside_text_scores_witness :
  3 ≤ text_score ["Art"] [] "" ("my st" +:+ Str.lower "Art" +:+ "up idea").
Proof.
  apply (keyword_inside_text_scores ["Art"] [] "" "my st" "up idea" "Art").
  left.
Defined.

Lemma lower_char_idem (c : Ascii.ascii) :
  Str.lower_char (Str.lower_char c) = Str.lower_char c.
Proof. destruct c as [[] [] [] [] [] [] [] []]; reflexivity. Qed.

Lemma lower_idem (s : string) : Str.lower (Str.lower s) = Str.lower s.
Proof.
  induction s as [|c s IH]; [reflexivity|].
  simpl. by rewrite lower_char_idem, IH.
Qed.

(** X14.  Scoring ignores letter case in the title, the content, the
    keywords and the problem description: lowercasing all of them leaves
    the score of a post unchanged. *)
Theorem scoring_ignores_case ak ek pd (post : Post) (t c : string) :
  post_get post "title" (VStr "") = VStr t →
  post_get post "content" (VStr "") = VStr c →
  post_score (Str.lower <$> ak) (Str.lower <$> ek) (Str.lower pd)
    (<["title" := VStr (Str.lower t)]> (<["content" := VStr (Str.lower c)]> post))
  = post_score ak ek pd post.
Proof.
  intros Ht Hc. unfold post_score, search_text.
  rewrite Ht, Hc. unfold post_get.
  rewrite lookup_insert_eq, lookup_insert_ne, lookup_insert_eq by done. simpl.
  rewrite !lower_idem. f_equal.
  rewrite !text_score_closed_form, !hits_fmap, lower_idem.
  rewrite (hits_ext (λ k, keyword_hit _ (Str.lower k)) (keyword_hit (Str.lower t +:+ " " +:+ Str.lower c)) ak),
    (hits_ext (λ k, keyword_hit _ (Str.lower k)) (keyword_hit (Str.lower t +:+ " " +:+ Str.lower c)) ek);
    [reflexivity | |]; intros k; unfold keyword_hit; by rewrite lower_idem.
Qed.

Lemma scoring_ignores_case_witness :
  post_score (Str.lower <$> ["Client"]) (Str.lower <$> ["SaaS"]) (Str.lower "Pricing HELP")
    (<["title" := VStr (Str.lower "Need HELP with Pricing")]>
       (<["content" := VStr (Str.lower "My SaaS has no Client")]>
          (Sample.post_of "Need HELP with Pricing" "My SaaS has no Client")))
  = post_score ["Client"] ["SaaS"] "Pricing HELP"
      (Sample.post_of "Need HELP with Pricing" "My SaaS has no Client").
Proof.
  apply (scoring_ignores_case ["Client"] ["SaaS"] "Pricing HELP"
           (Sample.post_of "Need HELP with Pricing" "My SaaS has no Client")
           "Need HELP with Pricing" "My SaaS has no Client");
    vm_compute; reflexivity.
Defined.

(** X15.  Words of the problem description of three characters or fewer
    earn nothing: when every word is that short, the score is the score
    for the empty problem description. *)
Theorem short_problem_words_ignored ak ek pd text :
  Forall (λ word, (String.length word ≤ 3)%nat) (Str.split (Str.lower pd)) →
  text_score ak ek pd text = text_score ak ek "" text.
Proof.
  intros Hshort. rewrite !text_score_closed_form.
  rewrite (hits_none (word_hit text) (Str.split (Str.lower pd))); [reflexivity|].
  eapply Forall_impl; [exact Hshort|]. intros word Hw. simpl in Hw.
  unfold word_hit.
  destruct (Nat.ltb_spec 3 (String.length word)); [lia | reflexivity].
Qed.

Lemma short_problem_words_ignored_witness :
  text_score ["client"] [] "Get a new SEO ad" "we get a new seo ad client"
  = text_score ["client"] [] "" "we get a new seo ad client".
Proof.
  apply (short_problem_words_ignored ["client"] [] "Get a new SEO ad"
           "we get a new seo ad client").
  vm_compute. repeat constructor.
Defined.

Lemma post_score_insert_score ak ek pd (post : Post) (v : pyval) :
  post_score ak ek pd (<["relevance_score" := v]> post) = post_score ak ek pd post.
Proof.
  unfold post_score, search_text. by rewrite !post_get_insert_ne.
Qed.

(** X16.  Scoring does not read the stored score: running the scoring loop
    again over the posts it has scored gives the same scored posts and the
    same selection. *)
Theorem rescoring_is_idempotent threshold ak ek pd (posts acc D filtered : list Post) :
  scoring_loop threshold ak ek pd posts acc = Ok (D, filtered) →
  scoring_loop threshold ak ek pd D acc = Ok (D, filtered).
Proof.
  revert acc D filtered.
  induction posts as [|post rest IH]; intros acc D filtered; simpl.
  - by intros [= <- <-].
  - destruct (post_score ak ek pd post) as [sc|e] eqn:Hsc; simpl; [|discriminate].
    destruct (scoring_loop _ _ _ _ rest _) as [[D' filtered']|e] eqn:Hrec;
      simpl; [|discriminate].
    intros [= <- <-]. simpl.
    rewrite post_score_insert_score, Hsc. simpl.
    rewrite insert_insert_eq. apply IH in Hrec. by rewrite Hrec.
Qed.

Lemma rescoring_is_idempotent_witness :
  scoring_loop 5 [] [] "pricing" Sample.ranking_scored []
  = Ok (Sample.ranking_scored, Sample.ranking_output).
Proof.
  apply (rescoring_is_idempotent 5 [] [] "pricing" Sample.ranking_posts []).
  vm_compute. reflexivity.
Defined.

(** ** More on lead construction *)

Lemma create_leads_app (p1 p2 : list Post) (pd bt : string) :
  _create_leads_from_posts (p1 ++ p2) pd bt
  = _create_leads_from_posts p1 pd bt ++ _create_leads_from_posts p2 pd bt.
Proof.
  induction p1 as [|post p1 IH]; [reflexivity|].
  simpl. destruct (make_lead post bt); by rewrite IH.
Qed.

Lemma make_lead_unusable (post : Post) (bt : string) :
  unusable_content (post_get post "content" (VStr "")) →
  raises (make_lead post bt).
Proof.
  unfold make_lead, make_snippet.
  destruct (post_get post "content" (VStr "")) as [|z|s|l]; simpl; try done;
    try by eexists.
  intros Hlong. destruct (Nat.ltb_spec 200 (length l)); [|lia]. simpl. by eexists.
Qed.

(** X17.  A post from which no snippet can be built (its content is [None],
    a number, or a list of more than 200 items) is skipped, and the leads of
    the other posts are built as if it were not there. *)
Theorem unusable_post_skipped (before after : list Post) (bad : Post) (pd bt : string) :
  unusable_content (post_get bad "content" (VStr "")) →
  _create_leads_from_posts (before ++ bad :: after) pd bt
  = _create_leads_from_posts (before ++ after) pd bt.
Proof.
  intros Hbad. rewrite !create_leads_app. f_equal. simpl.
  by destruct (make_lead_unusable bad bt Hbad) as [e ->].
Qed.

Lemma unusable_post_skipped_witness :
  _create_leads_from_posts
    ([Sample.post_of "a" "first"] ++ {[ "title" := VStr "b"; "content" := VNone ]}
       :: [Sample.post_of "c" "third"]) "p" "saas"
  = _create_leads_from_posts
      ([Sample.post_of "a" "first"] ++ [Sample.post_of "c" "third"]) "p" "saas".
Proof.
  apply (unusable_post_skipped [Sample.post_of "a" "first"] [Sample.post_of "c" "third"]
           {[ "title" := VStr "b"; "content" := VNone ]} "p" "saas").
  vm_compute. exact I.
Defined.

(** X18.  The leads are built in the order of the posts and there are never
    more leads than posts; posts with string content are never skipped, so
    for them there are exactly as many leads as posts. *)
Theorem leads_follow_posts (posts : list Post) (pd bt : string) :
  (length (_create_leads_from_posts posts pd bt) ≤ length posts)%nat
  ∧ (Forall (λ post, is_str (post_get post "content" (VStr ""))) posts →
     title <$> _create_leads_from_posts posts pd bt
     = (λ post, post_get post "title" (VStr "")) <$> posts).
Proof.
  split.
  - induction posts as [|post posts IH]; simpl; [lia|].
    destruct (make_lead post bt); simpl; lia.
  - induction 1 as [|post posts [c Hc] _ IH]; [reflexivity|].
    assert (∃ lead, make_lead post bt = Ok lead
                    ∧ title lead = post_get post "title" (VStr "")) as (lead & Hl & Ht).
    { unfold make_lead, make_snippet. rewrite Hc. simpl.
      destruct (200 <? String.length c)%nat; simpl; eauto. }
    cbn [_create_leads_from_posts]. rewrite Hl, !fmap_cons, Ht, IH. reflexivity.
Qed.

Lemma leads_follow_posts_witness :
  title <$> _create_leads_from_posts Sample.ranking_posts "pricing" "saas"
  = (λ post, post_get post "title" (VStr "")) <$> Sample.ranking_posts.
Proof.
  apply (leads_follow_posts Sample.ranking_posts "pricing" "saas").
  repeat constructor; eexists; vm_compute; reflexivity.
Defined.

(** ** Summaries from the summary service *)

Lemma fallback_summary_text pd (lead : Lead) :
  sliceable (title lead) →
  fallback_summary pd lead = Ok (set_ai_summary lead (fallback_text pd lead)).
Proof.
  unfold fallback_summary, fallback_text. by destruct (title lead).
Qed.

Lemma fallback_all (leads : list Lead) (pd : string) :
  Forall (λ lead, sliceable (title lead)) leads →
  for_each (fallback_summary pd) leads
  = Ok ((λ lead, set_ai_summary lead (fallback_text pd lead)) <$> leads).
Proof.
  intros Hsl. apply for_each_Ok_map.
  eapply Forall_impl; [exact Hsl|]. intros lead. apply fallback_summary_text.
Qed.

Lemma apply_summaries_sliceable summaries pd (i : nat) (leads : list Lead) :
  Forall (λ lead, sliceable (title lead)) leads →
  apply_summaries summaries pd i leads
  = Ok (imap (λ j lead, set_ai_summary lead
                          (default (fallback_text pd lead) (summaries !! (i + j)%nat)))
             leads).
Proof.
  intros Hsl. revert i. induction Hsl as [|lead leads Hl _ IH]; intros i;
    [reflexivity|].
  simpl. unfold apply_summary at 1. rewrite Nat.add_0_r.
  assert ((match summaries !! i with
           | Some summary => Ok (set_ai_summary lead summary)
           | None => fallback_summary pd lead
           end)
          = Ok (set_ai_summary lead (default (fallback_text pd lead) (summaries !! i))))
    as -> by (destruct (summaries !! i); [reflexivity | by apply fallback_summary_text]).
  simpl. rewrite IH. simpl. do 2 f_equal.
  apply imap_ext. intros j lead' _. simpl. by rewrite Nat.add_succ_r.
Qed.

(** X19.  When the service answers and every title can be sliced, the first
    ten leads receive the service's summaries by position, a lead among
    them for which the service returned no summary receives the fallback
    text, every lead after the tenth receives the fallback text, and
    summaries beyond the tenth are not used. *)
Theorem service_summaries_by_position svc (leads : list Lead) (pd : string)
    (summaries : list string) :
  svc (post_for_summary <$> take 10 leads) pd = Ok summaries →
  Forall (λ lead, sliceable (title lead)) leads →
  _add_openai_summaries svc leads pd
  = Ok (imap (λ i lead, set_ai_summary lead
                          (default (fallback_text pd lead) (summaries !! i)))
             (take 10 leads)
        ++ ((λ lead, set_ai_summary lead (fallback_text pd lead)) <$> drop 10 leads)).
Proof.
  intros Hsvc Hsl. unfold _add_openai_summaries, openai_summaries_try.
  rewrite Hsvc. simpl.
  rewrite (apply_summaries_sliceable summaries pd 0) by by apply Forall_take.
  simpl. rewrite fallback_all by by apply Forall_drop. reflexivity.
Qed.

Lemma service_summaries_by_position_witness :
  ai_summary <$>
    default [] (match _add_openai_summaries Sample.two_summaries Sample.twelve_leads "Pricing" with
                | Ok l => Some l
                | Raise _ => None
                end)
  = ["first summary"; "second summary"]
    ++ ((λ i : nat, "Post about pricing - lead " +:+ pretty i +:+ "...") <$> seq 2 10).
Proof.
  rewrite (service_summaries_by_position Sample.two_summaries Sample.twelve_leads
             "Pricing" ["first summary"; "second summary"]).
  - vm_compute. reflexivity.
  - reflexivity.
  - vm_compute. repeat constructor.
Defined.

(** X20.  When the service raises and every title can be sliced, every lead
    of the batch receives the fallback text and the whole batch is
    returned. *)
Theorem service_failure_falls_back svc (leads : list Lead) (pd : string) :
  raises (svc (post_for_summary <$> take 10 leads) pd) →
  Forall (λ lead, sliceable (title lead)) leads →
  _add_openai_summaries svc leads pd
  = Ok ((λ lead, set_ai_summary lead (fallback_text pd lead)) <$> leads).
Proof.
  intros [e He] Hsl. unfold _add_openai_summaries, openai_summaries_try.
  rewrite He. simpl. by apply fallback_all.
Qed.

Lemma service_failure_falls_back_witness :
  _add_openai_summaries Sample.failing_service Sample.twelve_leads "Pricing"
  = Ok ((λ lead, set_ai_summary lead (fallback_text "Pricing" lead))
          <$> Sample.twelve_leads).
Proof.
  apply (service_failure_falls_back Sample.failing_service Sample.twelve_leads "Pricing").
  - exists (CollaboratorError "summary service unavailable"). reflexivity.
  - vm_compute. repeat constructor.
Defined.

Lemma imap_summary_frame (f : nat → Lead → string) (l : list Lead) :
  Forall2 (λ lead lead', ∃ summary, lead' = set_ai_summary lead summary)
          l (imap (λ i lead, set_ai_summary lead (f i lead)) l).
Proof.
  revert f. induction l as [|lead l IH]; intros f; [constructor|].
  rewrite imap_cons. constructor; [by eexists|]. apply (IH (λ i, f (S i))).
Qed.

(** X21.  Whatever the service does, when every title can be sliced the
    annotator returns as many leads as it was given, in the same order,
    and changes nothing but their [ai_summary]. *)
Theorem service_summaries_frame svc (leads : list Lead) (pd : string) :
  Forall (λ lead, sliceable (title lead)) leads →
  ∃ leads',
    _add_openai_summaries svc leads pd = Ok leads'
    ∧ Forall2 (λ lead lead', ∃ summary, lead' = set_ai_summary lead summary)
              leads leads'.
Proof.
  intros Hsl. unfold _add_openai_summaries, openai_summaries_try.
  destruct (svc (post_for_summary <$> take 10 leads) pd) as [summaries|e]; simpl.
  - rewrite (apply_summaries_sliceable summaries pd 0) by by apply Forall_take.
    simpl. rewrite fallback_all by by apply Forall_drop. simpl.
    eexists; split; [reflexivity|].
    rewrite <- (take_drop 10 leads) at 1.
    apply Forall2_app.
    + apply (imap_summary_frame
               (λ i lead, default (fallback_text pd lead) (summaries !! i))).
    + apply Forall2_fmap_r, Forall_Forall2_diag, Forall_forall.
      intros lead _. by eexists.
  - rewrite fallback_all by done. eexists; split; [reflexivity|].
    apply Forall2_fmap_r, Forall_Forall2_diag, Forall_forall.
    intros lead _. by eexists.
Qed.

Lemma service_summaries_frame_witness :
  ∃ leads',
    _add_openai_summaries Sample.two_summaries Sample.twelve_leads "Pricing" = Ok leads'
    ∧ Forall2 (λ lead lead', ∃ summary, lead' = set_ai_summary lead summary)
              Sample.twelve_leads leads'.
Proof.
  apply (service_summaries_frame Sample.two_summaries Sample.twelve_leads "Pricing").
  vm_compute. repeat constructor.
Defined.

(** ** Further properties of the filter *)

Lemma rule_based_filter_total_witness :
  ∃ out, fst (_rule_based_filter 5 Sample.no_keywords Sample.empty_store
                Sample.ranking_posts "pricing" "saas" None) = Ok out.
Proof.
  apply (rule_based_filter_total 5 Sample.no_keywords Sample.empty_store
           Sample.ranking_posts "pricing" "saas" None []).
  - reflexivity.
  - repeat constructor; eexists; vm_compute; reflexivity.
Defined.

Lemma fallback_propagates_witness :
  raises (_add_simple_summaries
            [Sample.lead_titled (VStr "A title"); Sample.lead_titled (VInt 7)]
            "pricing").
Proof.
  apply (fallback_propagates
           [Sample.lead_titled (VStr "A title"); Sample.lead_titled (VInt 7)] "pricing").
  exists (Sample.lead_titled (VInt 7)). split.
  - right. left.
  - intros H. exact H.
Defined.

(** X24.  Scoring writes the key ["relevance_score"] of each post and
    nothing else: every other key of every post is as it was, and the
    value written is the score of the post. *)
Theorem scoring_only_writes_score threshold enhance_query st posts pd bt it D out st' :
  rule_based_scored threshold enhance_query st posts pd bt it = (Ok (D, out), st') →
  Forall2 (λ post d,
             (∀ key, key ≠ "relevance_score" → d !! key = post !! key)
             ∧ ∃ ek, enhance_query pd bt = Ok ek
                     ∧ post_score (fst (lookup_keywords st bt it) ++ ek) ek pd post
                       = Ok (relevance_score d)) posts D.
Proof.
  intros H. apply rule_based_scored_posts in H as (ek & Hek & Hall).
  eapply Forall2_impl; [exact Hall|].
  intros post d (sc & Hsc & ->). split.
  - intros key Hkey. by rewrite lookup_insert_ne.
  - exists ek. by rewrite relevance_score_insert.
Qed.

Lemma scoring_only_writes_score_witness :
  Forall2 (λ post d,
             (∀ key, key ≠ "relevance_score" → d !! key = post !! key)
             ∧ ∃ ek, Sample.no_keywords "pricing" "saas" = Ok ek
                     ∧ post_score (fst (lookup_keywords Sample.empty_store "saas" None) ++ ek)
                                  ek "pricing" post
                       = Ok (relevance_score d))
          Sample.ranking_posts Sample.ranking_scored.
Proof.
  apply (scoring_only_writes_score 5 Sample.no_keywords Sample.empty_store
           Sample.ranking_posts "pricing" "saas" None
           Sample.ranking_scored Sample.ranking_output Sample.empty_store).
  vm_compute. reflexivity.
Defined.
